(** * Hotel room reservation: inventory and allocation (src/src/App.jsx)

    A shallow embedding of [initializeRooms], [findBestAllocation] and
    [bookRooms], and the properties of the room-allocation policy. *)

From Stdlib Require Import ZArith QArith Lia String.
From stdpp Require Import base option list sorting gmap.

Local Open Scope Z_scope.

(** ** Data model *)

(** A room object: [{ number, booked }]. *)
Record Room := mkRoom { number : Z; booked : bool }.

(** An element of an allocation: [{ floor, index }], where [index] is a
    position in [rooms[floor]] ([findIndex] yields -1 when nothing matches). *)
Record RoomRef := mkRef { floor : nat; index : Z }.

#[global] Instance Room_eq_dec : EqDecision Room.
Proof. solve_decision. Defined.
#[global] Instance RoomRef_eq_dec : EqDecision RoomRef.
Proof. solve_decision. Defined.

(** The [rooms] object: floor number to the array of that floor's rooms. *)
Abbreviation Inventory := (gmap nat (list Room)).

(** ** Array primitives used by the source *)

Module Js.

(** [arr[i]] for an integer [i]: [undefined] ([None]) out of range. *)
Definition at_index {A} (arr : list A) (i : Z) : option A :=
  if i <? 0 then None else arr !! Z.to_nat i.

(** [arr.findIndex(p)]: first position satisfying [p], else -1. *)
Fixpoint findIndex_from {A} (p : A → bool) (arr : list A) (i : Z) : Z :=
  match arr with
  | [] => -1
  | x :: rest => if p x then i else findIndex_from p rest (i + 1)
  end.
Definition findIndex {A} (p : A → bool) (arr : list A) : Z :=
  findIndex_from p arr 0.

(** [arr.slice(0, e)]: a negative [e] counts from the end. *)
Definition slice0 {A} (arr : list A) (e : Z) : list A :=
  let len := Z.of_nat (length arr) in
  let k := if e <? 0 then Z.max (len + e) 0 else Z.min e len in
  take (Z.to_nat k) arr.

(** [arr.sort(cmp)]: a stable sort; [cmp a b <= 0] keeps [a] before [b]. *)
Fixpoint sort_insert {A} (cmp : A → A → Z) (x : A) (l : list A) : list A :=
  match l with
  | [] => [x]
  | y :: rest =>
      if cmp x y <=? 0 then x :: y :: rest else y :: sort_insert cmp x rest
  end.
Definition sort {A} (cmp : A → A → Z) (arr : list A) : list A :=
  foldr (sort_insert cmp) [] arr.

End Js.

(** ** initializeRooms *)

(** The inner loop: [floorRooms.push({number: base + i, booked: false})]
    for [i = 1 .. roomCount]. *)
Definition floorRooms (floor : nat) : list Room :=
  let roomCount := if decide (floor = 10%nat) then 7%nat else 10%nat in
  let base := if decide (floor = 10%nat) then 1000 else Z.of_nat floor * 100 in
  (λ i : nat, mkRoom (base + Z.of_nat i) false) <$> seq 1 roomCount.

(** The outer loop: [rooms[floor] = floorRooms] for [floor = 1 .. 10]. *)
Definition initializeRooms : Inventory :=
  foldl (λ (rooms : Inventory) (floor : nat), <[floor := floorRooms floor]> rooms)
        ∅ (seq 1 10).

(** ** findBestAllocation *)

(** [rooms[floor].filter((room) => !room.booked)] on the array. *)
Definition available (arr : list Room) : list Room :=
  filter (λ room, booked room = false) arr.

(** [{ floor: floor, index: rooms[floor].findIndex((r) => r.number === room.number) }] *)
Definition refOf (floor : nat) (arr : list Room) (room : Room) : RoomRef :=
  mkRef floor (Js.findIndex (λ r, number r =? number room) arr).

(** The comparator [(a, b) => a.number - b.number]. *)
Definition byNumber (a b : Room) : Z := number a - number b.

(** The source calls [Array.prototype.sort] twice.  The routine is written
    over the engine's sort so that its result can be compared across
    engines; [findBestAllocation] below fixes the stable sort [Js.sort]. *)
Abbreviation SortFn := (∀ A : Type, (A → A → Z) → list A → list A).

(** Priority 1, the loop over [floor = 1 .. 10].  [None] is a [TypeError]
    ([rooms[floor]] is [undefined]); [Some None] is the loop running to its
    end; [Some (Some a)] is [return a]. *)
Fixpoint sameFloor (sort : SortFn) (rooms : Inventory) (num : Z)
    (floors : list nat) : option (option (list RoomRef)) :=
  match floors with
  | [] => Some None
  | floor :: rest =>
      arr ← rooms !! floor;
      let available := available arr in
      if num <=? Z.of_nat (length available) then
        let sortedAvailable := sort _ byNumber available in
        Some (Some (refOf floor arr <$> Js.slice0 sortedAvailable num))
      else sameFloor sort rooms num rest
  end.

(** [rooms[a].filter((room) => !room.booked).length] inside the comparator.
    The comparator runs only after the Priority 1 loop has read all of
    [rooms[1] .. rooms[10]] (see [sameFloor_fallthrough_present]), so the
    lookup is defined there. *)
Definition availableLen (rooms : Inventory) (a : nat) : Z :=
  Z.of_nat (length (available (rooms !!! a))).

(** The comparator of [floors.sort]. *)
Definition byAvailability (rooms : Inventory) (a b : nat) : Z :=
  let availableA := availableLen rooms a in
  let availableB := availableLen rooms b in
  if decide (availableB ≠ availableA) then availableB - availableA
  else Z.of_nat a - Z.of_nat b.

(** The inner loop [for (const room of available)] with its [break]. *)
Fixpoint pushAvailable (floor : nat) (arr : list Room) (num : Z)
    (available : list Room) (allocation : list RoomRef) : list RoomRef :=
  match available with
  | [] => allocation
  | room :: rest =>
      if Z.of_nat (length allocation) <? num
      then pushAvailable floor arr num rest (allocation ++ [refOf floor arr room])
      else allocation
  end.

(** The outer loop [for (const floor of floors)] with its [break]. *)
Fixpoint acrossFloors (rooms : Inventory) (num : Z) (floors : list nat)
    (allocation : list RoomRef) : option (list RoomRef) :=
  match floors with
  | [] => Some allocation
  | floor :: rest =>
      arr ← rooms !! floor;
      let allocation := pushAvailable floor arr num (available arr) allocation in
      if decide (Z.of_nat (length allocation) = num) then Some allocation
      else acrossFloors rooms num rest allocation
  end.

(** [Array.from({ length: 10 }, (_, i) => i + 1)] *)
Definition allFloors : list nat := seq 1 10.

Definition findBestAllocationWith (sort : SortFn) (rooms : Inventory) (num : Z)
  : option (list RoomRef) :=
  r ← sameFloor sort rooms num allFloors;
  match r with
  | Some allocation => Some allocation
  | None =>
      let floors := sort _ (byAvailability rooms) allFloors in
      acrossFloors rooms num floors []
  end.

Definition findBestAllocation : Inventory → Z → option (list RoomRef) :=
  findBestAllocationWith (@Js.sort).

(** ** bookRooms *)

(** What [bookRooms] does that its caller can observe. *)
Inductive Event :=
  | Alert (msg : string)
  | CallFindBestAllocation (num : Z)
  | SetRooms (updatedRooms : Inventory).

Inductive Completion := Returned | ThrewTypeError.

(** The result of a run: the events in order, the room objects as they are
    afterwards, and how the call ended. *)
Record Run := mkRun { trace : list Event; store : Inventory; completion : Completion }.

(** [updatedRooms[room.floor][room.index].booked = true].  [updatedRooms] is
    a shallow copy of [rooms]: both hold the same arrays of the same room
    objects, so the assignment is to the one shared store. *)
Definition markBooked (ref : RoomRef) (rooms : Inventory) : option Inventory :=
  arr ← rooms !! floor ref;
  room ← Js.at_index arr (index ref);
  Some (<[floor ref := <[Z.to_nat (index ref) := mkRoom (number room) true]> arr]> rooms).

(** [allocation.forEach(...)]: stops at the first [TypeError], leaving the
    assignments made so far in place. *)
Fixpoint forEachBook (allocation : list RoomRef) (rooms : Inventory)
  : Inventory * Completion :=
  match allocation with
  | [] => (rooms, Returned)
  | ref :: rest =>
      match markBooked ref rooms with
      | None => (rooms, ThrewTypeError)
      | Some rooms' => forEachBook rest rooms'
      end
  end.

(** Lines 39-43: the copy, the [forEach] and [setRooms(updatedRooms)]. *)
Definition commitAllocation (allocation : list RoomRef) (rooms : Inventory)
  : list Event * Inventory * Completion :=
  match forEachBook allocation rooms with
  | (rooms', Returned) => ([SetRooms rooms'], rooms', Returned)
  | (rooms', ThrewTypeError) => ([], rooms', ThrewTypeError)
  end.

Definition bookRooms (rooms : Inventory) (num : Z) : Run :=
  if (num <? 1) || (num >? 5) then
    mkRun [Alert "You can book between 1 to 5 rooms at a time."] rooms Returned
  else
    match findBestAllocation rooms num with
    | None => mkRun [CallFindBestAllocation num] rooms ThrewTypeError
    | Some allocation =>
        if decide (length allocation = 0%nat) then
          mkRun [CallFindBestAllocation num;
                 Alert "Not enough rooms available to fulfill the booking."]
                rooms Returned
        else
          let '(events, rooms', c) := commitAllocation allocation rooms in
          mkRun (CallFindBestAllocation num :: events) rooms' c
    end.

(** ** generateRandomOccupancy and resetBooking *)

(** The values that successive calls of [Math.random()] return. *)
Abbreviation Random := (nat → Q).

(** One call of [Math.random()]: the next value, and the generator after it. *)
Definition Math_random (random : Random) : Q * Random :=
  (random 0%nat, λ n, random (S n)).

(** The literal [0.3]: the double nearest to 3/10, which is
    5404319552844595 / 2^54.  A comparison of two finite doubles is the
    comparison of the rationals they denote. *)
Definition threshold : Q := Qmake 5404319552844595 18014398509481984.

(** [Math.random() < 0.3] for the value [d] drawn. *)
Definition belowThreshold (d : Q) : bool := negb (Qle_bool threshold d).

(** [updatedRooms[floor].map((room) => ({ ...room, booked: Math.random() < 0.3 }))]:
    a new array of new room objects, one draw per room in array order. *)
Fixpoint mapRandom (arr : list Room) (random : Random) : list Room * Random :=
  match arr with
  | [] => ([], random)
  | room :: rest =>
      let '(d, random) := Math_random random in
      let room' := mkRoom (number room) (belowThreshold d) in
      let '(rest', random) := mapRandom rest random in
      (room' :: rest', random)
  end.

(** The loop over [floor = 1 .. 10] on the copy [updatedRooms]; [None] is
    the [TypeError] of [updatedRooms[floor].map] on a missing floor. *)
Fixpoint randomizeFloors (floors : list nat) (updatedRooms : Inventory)
    (random : Random) : option Inventory * Random :=
  match floors with
  | [] => (Some updatedRooms, random)
  | floor :: rest =>
      match updatedRooms !! floor with
      | None => (None, random)
      | Some arr =>
          let '(arr', random) := mapRandom arr random in
          randomizeFloors rest (<[floor := arr']> updatedRooms) random
      end
  end.

(** [generateRandomOccupancy]: only the copy is assigned to and [map]
    builds new objects, so the rooms held before are not touched; [store]
    is the inventory the component holds afterwards. *)
Definition generateRandomOccupancy (rooms : Inventory) (random : Random)
  : Run * Random :=
  match randomizeFloors allFloors rooms random with
  | (Some updatedRooms, random) =>
      (mkRun [SetRooms updatedRooms] updatedRooms Returned, random)
  | (None, random) => (mkRun [] rooms ThrewTypeError, random)
  end.

(** [resetBooking]: [setRooms(initializeRooms())]. *)
Definition resetBooking (rooms : Inventory) : Run :=
  mkRun [SetRooms initializeRooms] initializeRooms Returned.

(** The three buttons of the control panel, and a session of clicks on
    them: each handler runs on the inventory the previous one left. *)
Inductive Action := Book (num : Z) | Randomize | Reset.

Definition click (a : Action) (rooms : Inventory) (random : Random)
  : Run * Random :=
  match a with
  | Book num => (bookRooms rooms num, random)
  | Randomize => generateRandomOccupancy rooms random
  | Reset => (resetBooking rooms, random)
  end.

Fixpoint session (actions : list Action) (rooms : Inventory) (random : Random)
  : list Run :=
  match actions with
  | [] => []
  | a :: rest =>
      let '(run, random) := click a rooms random in
      run :: session rest (store run) random
  end.

(** The inventory a session ends with. *)
Definition finalStore (rooms : Inventory) (runs : list Run) : Inventory :=
  default rooms (store <$> last runs).

(** ** Vocabulary of the specification *)

(** [rooms[ref.floor][ref.index]], the room a reference denotes. *)
Definition lookupRoom (rooms : Inventory) (ref : RoomRef) : option Room :=
  arr ← rooms !! floor ref; Js.at_index arr (index ref).

(** AvailableRooms(floor) and AvailableCount(floor). *)
Definition AvailableRooms (rooms : Inventory) (f : nat) : list Room :=
  available (rooms !!! f).
Definition AvailableCount (rooms : Inventory) (f : nat) : nat :=
  length (AvailableRooms rooms f).

(** The number of unbooked rooms on the ten floors. *)
Definition totalAvailable (rooms : Inventory) : nat :=
  sum_list_with (AvailableCount rooms) allFloors.

(** A floor lists its rooms by strictly ascending room number. *)
Definition ascending (arr : list Room) : Prop :=
  StronglySorted Z.lt (number <$> arr).

(** The floors are exactly 1..10. *)
Definition ten_floors (rooms : Inventory) : Prop :=
  dom rooms = list_to_set allFloors.

(** The part of the inventory invariants the allocation relies on: the
    floors are exactly 1..10 and every floor is in ascending order (so no
    room number repeats on a floor). *)
Definition wf_inventory (rooms : Inventory) : Prop :=
  ten_floors rooms ∧ map_Forall (λ _ arr, ascending arr) rooms.

(** The references to the unbooked rooms of an array, each with its room,
    in array order. *)
Definition unbookedAt (arr : list Room) : list (nat * Room) :=
  filter (λ p, booked p.2 = false) (imap pair arr).

(** Ascending room-number order on positioned rooms. *)
Definition number_le (p q : nat * Room) : Prop := number p.2 ≤ number q.2.
#[global] Instance number_le_dec : RelDecision number_le.
Proof. intros p q. unfold number_le. apply _. Defined.

(** A floor's available rooms, as references, in ascending room-number
    order. *)
Definition AvailableRefs (rooms : Inventory) (f : nat) : list RoomRef :=
  (λ p, mkRef f (Z.of_nat p.1)) <$> merge_sort number_le (unbookedAt (rooms !!! f)).

(** Floor [a] is ranked no later than floor [b]: more available rooms
    first, the lower floor number first among equals. *)
Definition rankedBefore (rooms : Inventory) (a b : nat) : Prop :=
  (AvailableCount rooms b < AvailableCount rooms a)%nat
  ∨ (AvailableCount rooms a = AvailableCount rooms b ∧ (a ≤ b)%nat).
#[global] Instance rankedBefore_dec rooms : RelDecision (rankedBefore rooms).
Proof. intros a b. unfold rankedBefore. apply _. Defined.

(** [ranking] lists the ten floors in ranked order. *)
Definition is_ranking (rooms : Inventory) (ranking : list nat) : Prop :=
  ranking ≡ₚ allFloors ∧ StronglySorted (rankedBefore rooms) ranking.

(** Tier 2 as the specification words it: walk the ranked floors, append
    each floor's available rooms, stop at [num] rooms. *)
Definition crossFloorSelection (rooms : Inventory) (num : nat)
    (ranking : list nat) : list RoomRef :=
  take num (ranking ≫= AvailableRefs rooms).

(** Tier 1 as the specification words it: the first [num] available rooms
    of floor [f]. *)
Definition sameFloorSelection (rooms : Inventory) (num : nat) (f : nat)
  : list RoomRef :=
  take num (AvailableRefs rooms f).

(** An occupancy pattern laid over an inventory: every room keeps its
    number and is booked exactly when [isBooked] says so (what
    [generateRandomOccupancy] does with its coin flips made explicit). *)
Definition withOccupancy (isBooked : Z → bool) (rooms : Inventory) : Inventory :=
  (λ arr : list Room,
     (λ room, mkRoom (number room) (isBooked (number room))) <$> arr) <$> rooms.

(** An inventory for the examples: the rooms numbered below 109 are booked,
    so floor 1 has two rooms left and floors 2 to 10 are free. *)
Definition floor1_nearly_full : Inventory :=
  withOccupancy (λ n, n <? 109) initializeRooms.

(** Four rooms are free, on three floors: 105, 203, 207 and 301. *)
Definition scattered : Inventory :=
  withOccupancy (λ n, bool_decide (n ∉ [105; 203; 207; 301])) initializeRooms.

(** Only room 101 is free. *)
Definition one_room_left : Inventory :=
  withOccupancy (λ n, negb (n =? 101)) initializeRooms.

(** Room 101 is booked, every other room is free. *)
Definition room101_booked : Inventory :=
  withOccupancy (λ n, n =? 101) initializeRooms.

(** Rooms 101 and 102 are booked, every other room is free. *)
Definition scenario2 : Inventory :=
  withOccupancy (λ n, (n =? 101) || (n =? 102)) initializeRooms.

(** Every room is booked. *)
Definition fully_booked : Inventory :=
  withOccupancy (λ _, true) initializeRooms.

(** The state after [n] successive requests for five rooms. *)
Definition afterBookings (n : nat) (rooms : Inventory) : Inventory :=
  Nat.iter n (λ rooms, store (bookRooms rooms 5)) rooms.

(** All the rooms of an inventory. *)
Definition allRooms (rooms : Inventory) : list Room :=
  map_to_list rooms ≫= snd.

(** A selection the specification's WithBooked must reject: some reference
    denotes no room, or a room that is already booked. *)
Definition InvalidSelection (rooms : Inventory) (sel : list RoomRef) : Prop :=
  Exists (λ ref, match lookupRoom rooms ref with
                 | None => True
                 | Some room => booked room = true
                 end) sel.

(** The engine contract of [Array.prototype.sort] for a consistent
    comparator: the result is a permutation of the array, in comparator
    order. *)
Definition Consistent {A} (cmp : A → A → Z) : Prop :=
  (∀ a b, 0 < cmp a b ↔ cmp b a < 0)
  ∧ (∀ a b c, cmp a b ≤ 0 → cmp b c ≤ 0 → cmp a c ≤ 0).
Definition SortContract (sort : SortFn) : Prop :=
  ∀ A (cmp : A → A → Z) (l : list A), Consistent cmp →
    sort A cmp l ≡ₚ l ∧ StronglySorted (λ a b, cmp a b ≤ 0) (sort A cmp l).

(** A second engine: stdpp's merge sort on the comparator's order. *)
Definition mergeSortFn : SortFn :=
  λ A cmp, @merge_sort A (λ a b, cmp a b ≤ 0) (λ a b, Z_le_dec (cmp a b) 0).

(** The references the routine computes for a floor's available rooms, in
    array order. *)
Definition floorRefs (rooms : Inventory) (f : nat) : list RoomRef :=
  refOf f (rooms !!! f) <$> available (rooms !!! f).

(** A room after the commit step: booked if it was, or if [sel] names it. *)
Definition bookedBy (sel : list RoomRef) (ref : RoomRef) (room : Room) : Room :=
  mkRoom (number room) (booked room || bool_decide (ref ∈ sel)).

#[global] Instance ascending_dec arr : Decision (ascending arr).
Proof. unfold ascending. apply _. Defined.
#[global] Instance ten_floors_dec rooms : Decision (ten_floors rooms).
Proof. unfold ten_floors. apply _. Defined.
#[global] Instance wf_inventory_dec rooms : Decision (wf_inventory rooms).
Proof. unfold wf_inventory. apply _. Defined.
#[global] Instance is_ranking_dec rooms ranking : Decision (is_ranking rooms ranking).
Proof. unfold is_ranking. apply _. Defined.

(** The room numbers of an inventory, floor by floor: what stays when the
    booked flags are forgotten. *)
Definition layout (rooms : Inventory) : gmap nat (list Z) :=
  (λ arr : list Room, number <$> arr) <$> rooms.

(** The rooms of the floors 1..10 in the order in which
    [generateRandomOccupancy] visits them. *)
Definition visited (rooms : Inventory) : list Room :=
  allFloors ≫= (rooms !!!.).

(** The floors a selection touches, each once. *)
Definition floorsOf (sel : list RoomRef) : list nat :=
  remove_dups (floor <$> sel).

(** The references to all the free rooms of the floors 1..10. *)
Definition freeRefs (rooms : Inventory) : list RoomRef :=
  allFloors ≫= AvailableRefs rooms.

(** Draws for the examples: 0, 1/2, 0, 1/2, ... *)
Definition alternating : Random := λ n, Qmake (Z.of_nat (n mod 2)) 2.

(** The outcomes of [Math.random() < 0.3] for the first [m] draws. *)
Definition flags (random : Random) (m : nat) : list bool :=
  (λ k, belowThreshold (random k)) <$> seq 0 m.

(** * Properties *)

(** ** Array primitives *)

Section sort_facts.
Context {A : Type} (cmp : A → A → Z).

Lemma sort_insert_Permutation x l : Js.sort_insert cmp x l ≡ₚ x :: l.
Proof.
  induction l as [|y l IH]; simpl; [done|].
  case_match; [done|]. rewrite IH. apply perm_swap.
Qed.

Lemma sort_Permutation l : Js.sort cmp l ≡ₚ l.
Proof.
  induction l as [|x l IH]; simpl; [done|].
  unfold Js.sort in *. simpl. rewrite sort_insert_Permutation. by f_equiv.
Qed.

Lemma sort_length l : length (Js.sort cmp l) = length l.
Proof. by rewrite sort_Permutation. Qed.

Lemma sort_insert_sorted x l :
  Consistent cmp →
  StronglySorted (λ a b, cmp a b ≤ 0) l →
  StronglySorted (λ a b, cmp a b ≤ 0) (Js.sort_insert cmp x l).
Proof.
  intros [Hanti Htrans] Hl. induction Hl as [|y l Hl IH Hy]; simpl.
  { repeat constructor. }
  destruct (Z.leb_spec (cmp x y) 0) as [Hxy|Hxy].
  - constructor; [by constructor|]. constructor; [done|].
    eapply Forall_impl; [exact Hy|]. intros z Hz. by eapply Htrans.
  - constructor; [done|]. rewrite sort_insert_Permutation.
    constructor; [|done]. apply Hanti in Hxy. lia.
Qed.

Lemma sort_sorted l :
  Consistent cmp → StronglySorted (λ a b, cmp a b ≤ 0) (Js.sort cmp l).
Proof.
  intros Hc. induction l as [|x l IH]; simpl; [constructor|].
  by apply sort_insert_sorted.
Qed.

(** An array already in comparator order is left as it is. *)
Lemma sort_insert_id x l :
  Forall (λ y, cmp x y ≤ 0) l → Js.sort_insert cmp x l = x :: l.
Proof.
  destruct 1 as [|y l Hy _]; simpl; [done|].
  by destruct (Z.leb_spec (cmp x y) 0); [|lia].
Qed.

Lemma sort_id l :
  StronglySorted (λ a b, cmp a b ≤ 0) l → Js.sort cmp l = l.
Proof.
  induction 1 as [|x l Hl IH Hx]; [done|].
  unfold Js.sort in *. simpl. rewrite IH. by apply sort_insert_id.
Qed.
End sort_facts.

Lemma Js_sort_contract : SortContract (@Js.sort).
Proof. intros A cmp l Hc. split; [apply sort_Permutation|by apply sort_sorted]. Qed.

Lemma mergeSortFn_contract : SortContract mergeSortFn.
Proof.
  intros A cmp l [Hanti Htrans]. unfold mergeSortFn.
  assert (Total (λ a b : A, cmp a b ≤ 0)) as Htot.
  { intros a b. destruct (Z.le_gt_cases (cmp a b) 0) as [?|Hab]; [by left|].
    right. apply Hanti in Hab. lia. }
  assert (Transitive (λ a b : A, cmp a b ≤ 0)) as Htr.
  { intros a b c. apply Htrans. }
  split; [apply merge_sort_Permutation|].
  apply StronglySorted_merge_sort; done.
Qed.

Lemma slice0_take {A} (arr : list A) (num : Z) :
  0 ≤ num → Js.slice0 arr num = take (Z.to_nat num) arr.
Proof.
  intros Hnum. unfold Js.slice0.
  destruct (Z.ltb_spec num 0) as [?|_]; [lia|].
  destruct (Z.min_spec num (Z.of_nat (length arr))) as [[? ->]|[? ->]]; [done|].
  rewrite Nat2Z.id, !take_ge; [done| |done]. lia.
Qed.

Lemma StronglySorted_filter {A} (R : relation A) (P : A → Prop)
    `{!∀ x, Decision (P x)} (l : list A) :
  StronglySorted R l → StronglySorted R (filter P l).
Proof.
  induction 1 as [|x l Hl IH Hx]; [constructor|].
  rewrite filter_cons. case_decide; [|done].
  constructor; [done|].
  apply Forall_forall. intros y [_ Hy]%list_elem_of_filter.
  by eapply Forall_forall in Hx.
Qed.

Lemma StronglySorted_impl {A} (R1 R2 : relation A) (l : list A) :
  (∀ x y, R1 x y → R2 x y) → StronglySorted R1 l → StronglySorted R2 l.
Proof.
  intros HR. induction 1; constructor; [done|].
  eapply Forall_impl; [eassumption|]. auto.
Qed.

(** ** Room numbers and positions on an ascending floor *)

Lemma findIndex_from_range {A} (p : A → bool) (arr : list A) (k : Z) :
  Js.findIndex_from p arr k = -1
  ∨ k ≤ Js.findIndex_from p arr k < k + Z.of_nat (length arr).
Proof.
  revert k. induction arr as [|x arr IH]; intros k; simpl; [by left|].
  destruct (p x); [right; lia|].
  destruct (IH (k + 1)) as [->|?]; [by left|right; lia].
Qed.

(** [findIndex] finds a room with the number asked for whenever the array
    has one. *)
Lemma findIndex_from_found (arr : list Room) (n k : Z) :
  n ∈ number <$> arr →
  ∃ i room, Js.findIndex_from (λ r, number r =? n) arr k = k + Z.of_nat i
            ∧ arr !! i = Some room ∧ number room = n.
Proof.
  revert k. induction arr as [|x arr IH]; intros k Hin; csimpl in *.
  { by apply elem_of_nil in Hin. }
  destruct (Z.eqb_spec (number x) n) as [Hx|Hx].
  { exists 0%nat, x. split_and!; [lia|done|done]. }
  apply elem_of_cons in Hin as [?|Hin]; [congruence|].
  destruct (IH (k + 1) Hin) as (i & room & -> & ? & ?).
  exists (S i), room. split_and!; [lia|done|done].
Qed.

Lemma ascending_lookup_lt (arr : list Room) (i j : nat) (x y : Room) :
  ascending arr → arr !! i = Some x → arr !! j = Some y → (i < j)%nat →
  number x < number y.
Proof.
  unfold ascending. revert i j.
  induction arr as [|z arr IH]; intros i j Hs Hi Hj Hij; [done|].
  csimpl in Hs. apply StronglySorted_inv in Hs as [Hs Hz].
  destruct j as [|j]; [lia|]. destruct i as [|i]; simplify_eq/=.
  - eapply Forall_forall in Hz; [exact Hz|].
    apply list_elem_of_fmap_2. by eapply list_elem_of_lookup_2.
  - eapply IH; eauto. lia.
Qed.

Lemma ascending_lookup_inj (arr : list Room) (i j : nat) (x y : Room) :
  ascending arr → arr !! i = Some x → arr !! j = Some y →
  number x = number y → i = j.
Proof.
  intros Hs Hi Hj Hxy.
  destruct (Nat.lt_trichotomy i j) as [?|[?|?]]; [|done|].
  - pose proof (ascending_lookup_lt arr i j x y Hs Hi Hj). lia.
  - pose proof (ascending_lookup_lt arr j i y x Hs Hj Hi). lia.
Qed.

(** On an ascending floor [findIndex] by room number returns the position
    of the room itself. *)
Lemma refOf_position (f : nat) (arr : list Room) (i : nat) (room : Room) :
  ascending arr → arr !! i = Some room →
  refOf f arr room = mkRef f (Z.of_nat i).
Proof.
  intros Hs Hi. unfold refOf, Js.findIndex. f_equal.
  destruct (findIndex_from_found arr (number room) 0) as (j & r & -> & Hj & Hr).
  { apply list_elem_of_fmap_2. by eapply list_elem_of_lookup_2. }
  rewrite (ascending_lookup_inj arr j i r room); [lia|done..].
Qed.

Lemma filter_fmap {A B} (f : A → B) (P : B → Prop) `{!∀ y, Decision (P y)}
    (l : list A) :
  filter P (f <$> l) = f <$> filter (P ∘ f) l.
Proof.
  induction l as [|x l IH]; [done|]. csimpl.
  rewrite !filter_cons. simpl. case_decide; csimpl; by rewrite IH.
Qed.

Lemma StronglySorted_fmap_inv {A B} (f : A → B) (R : relation B) (l : list A) :
  StronglySorted R (f <$> l) → StronglySorted (λ x y, R (f x) (f y)) l.
Proof.
  induction l as [|x l IH]; csimpl; [constructor|].
  intros [Hl Hx]%StronglySorted_inv. constructor; [by apply IH|].
  apply Forall_forall. intros y Hy. eapply Forall_forall in Hx; [exact Hx|].
  by apply list_elem_of_fmap_2.
Qed.

Lemma imap_pair_snd {A} (l : list A) : (imap pair l).*2 = l.
Proof.
  rewrite fmap_imap.
  rewrite <-(list_fmap_id l) at 2. by rewrite <-imap_const.
Qed.

Lemma unbookedAt_snd (arr : list Room) : (unbookedAt arr).*2 = available arr.
Proof.
  unfold unbookedAt, available.
  rewrite <-(imap_pair_snd arr) at 2. by rewrite filter_fmap.
Qed.

Lemma unbookedAt_elem (arr : list Room) (i : nat) (room : Room) :
  (i, room) ∈ unbookedAt arr ↔ arr !! i = Some room ∧ booked room = false.
Proof.
  unfold unbookedAt. rewrite list_elem_of_filter, elem_of_lookup_imap. simpl.
  split.
  - intros [Hb (j & y & [= -> ->] & Hj)]. done.
  - intros [Hi Hb]. split; [done|]. by exists i, room.
Qed.

Lemma unbookedAt_length (arr : list Room) :
  length (unbookedAt arr) = length (available arr).
Proof. by rewrite <-unbookedAt_snd, length_fmap. Qed.

Lemma unbookedAt_sorted (arr : list Room) :
  ascending arr →
  StronglySorted (λ p q : nat * Room, number p.2 < number q.2) (unbookedAt arr).
Proof.
  intros Hs. apply StronglySorted_filter.
  apply (StronglySorted_fmap_inv (λ p : nat * Room, number p.2)).
  rewrite fmap_imap. unfold ascending in Hs.
  by rewrite <-(imap_const number arr) in Hs.
Qed.

Lemma unbookedAt_positions_sorted (arr : list Room) :
  StronglySorted (λ p q : nat * Room, (p.1 < q.1)%nat) (unbookedAt arr).
Proof.
  apply StronglySorted_filter.
  apply (StronglySorted_fmap_inv (λ p : nat * Room, p.1) lt).
  rewrite fmap_imap.
  assert (∀ k, StronglySorted lt (imap (λ n, fst ∘ pair (k + n)%nat) arr)) as H.
  { induction arr as [|x arr IH]; intros k; [constructor|].
    rewrite imap_cons. constructor.
    - erewrite imap_ext; [apply (IH (S k))|]. intros; simpl. f_equal; lia.
    - apply Forall_forall. intros y (i & z & -> & _)%elem_of_lookup_imap.
      simpl. lia. }
  apply (H 0%nat).
Qed.

(** Sorting an ascending floor's available rooms by room number leaves them
    in array order. *)
Lemma merge_sort_unbookedAt (arr : list Room) :
  ascending arr → merge_sort number_le (unbookedAt arr) = unbookedAt arr.
Proof.
  intros Hs.
  assert (Total number_le) by (intros p q; unfold number_le; lia).
  assert (Transitive number_le) by (intros p q r; unfold number_le; lia).
  apply (StronglySorted_unique_strong number_le).
  - intros [i x] [j y] Hx Hy. rewrite merge_sort_Permutation in Hx.
    unfold number_le. simpl.
    apply unbookedAt_elem in Hx as [Hx _], Hy as [Hy _]. intros ??.
    assert (i = j) as -> by (eapply ascending_lookup_inj; eauto; lia).
    congruence.
  - by apply StronglySorted_merge_sort.
  - eapply StronglySorted_impl; [|by apply unbookedAt_sorted].
    unfold number_le. intros; lia.
  - apply merge_sort_Permutation.
Qed.

(** On an ascending floor the references the routine computes with
    [findIndex] are the floor's available rooms in ascending order. *)
Lemma AvailableRefs_ascending (rooms : Inventory) (f : nat) (arr : list Room) :
  rooms !! f = Some arr → ascending arr →
  AvailableRefs rooms f = refOf f arr <$> available arr.
Proof.
  intros Hf Hs. unfold AvailableRefs.
  rewrite (lookup_total_correct _ _ _ Hf), merge_sort_unbookedAt by done.
  rewrite <-unbookedAt_snd, <-list_fmap_compose.
  apply list_fmap_ext. intros _ [i room] Hin%list_elem_of_lookup_2.
  apply unbookedAt_elem in Hin as [Hi _]. simpl.
  symmetry. by apply refOf_position.
Qed.

Lemma AvailableRefs_length (rooms : Inventory) (f : nat) :
  length (AvailableRefs rooms f) = AvailableCount rooms f.
Proof.
  unfold AvailableRefs, AvailableCount, AvailableRooms.
  by rewrite length_fmap, merge_sort_Permutation, unbookedAt_length.
Qed.

(** ** The two loops of findBestAllocation *)

Lemma floorRefs_length (rooms : Inventory) (f : nat) :
  length (floorRefs rooms f) = AvailableCount rooms f.
Proof. unfold floorRefs. by rewrite length_fmap. Qed.

Lemma bind_length_sum {A B} (g : A → list B) (l : list A) :
  length (l ≫= g) = sum_list_with (λ x, length (g x)) l.
Proof.
  induction l as [|x l IH]; [done|].
  rewrite bind_cons, length_app. simpl. lia.
Qed.

Lemma ten_floors_present (rooms : Inventory) (f : nat) :
  ten_floors rooms → f ∈ allFloors → is_Some (rooms !! f).
Proof.
  unfold ten_floors. intros Hdom Hf.
  apply elem_of_dom. rewrite Hdom. by apply elem_of_list_to_set.
Qed.

Lemma wf_inventory_ascending (rooms : Inventory) (f : nat) (arr : list Room) :
  wf_inventory rooms → rooms !! f = Some arr → ascending arr.
Proof. intros [_ Hasc] Hf. by apply (Hasc f arr). Qed.

Lemma pushAvailable_take (f : nat) (arr : list Room) (num : Z)
    (av : list Room) (allocation : list RoomRef) :
  Z.of_nat (length allocation) ≤ num →
  pushAvailable f arr num av allocation
  = allocation ++ take (Z.to_nat num - length allocation) (refOf f arr <$> av).
Proof.
  revert allocation. induction av as [|room av IH]; intros allocation Hle; simpl.
  { by rewrite take_nil, app_nil_r. }
  destruct (Z.ltb_spec (Z.of_nat (length allocation)) num) as [Hlt|Hge].
  - rewrite IH by (rewrite length_app; simpl; lia).
    rewrite <-app_assoc, length_app. simpl. f_equal.
    replace (Z.to_nat num - length allocation)%nat
      with (S (Z.to_nat num - (length allocation + 1)))%nat by lia.
    done.
  - replace (Z.to_nat num - length allocation)%nat with 0%nat by lia.
    by rewrite app_nil_r.
Qed.

Lemma acrossFloors_take (rooms : Inventory) (num : Z) (floors : list nat)
    (allocation : list RoomRef) :
  Forall (λ f, is_Some (rooms !! f)) floors →
  Z.of_nat (length allocation) ≤ num →
  acrossFloors rooms num floors allocation
  = Some (allocation
          ++ take (Z.to_nat num - length allocation) (floors ≫= floorRefs rooms)).
Proof.
  intros Hpresent. revert allocation.
  induction Hpresent as [|f floors [arr Hf] _ IH]; intros allocation Hle.
  { simpl. by rewrite take_nil, app_nil_r. }
  cbn [acrossFloors]. rewrite Hf. cbn [mbind option_bind].
  rewrite pushAvailable_take by done.
  rewrite bind_cons. unfold floorRefs at 1.
  rewrite (lookup_total_correct _ _ _ Hf).
  set (refs := refOf f arr <$> available arr).
  set (k := (Z.to_nat num - length allocation)%nat).
  rewrite take_app. clearbody refs.
  case_decide as Hlen; rewrite length_app, length_take in Hlen.
  - f_equal. f_equal.
    replace (k - length refs)%nat with 0%nat by (subst k; lia).
    by rewrite app_nil_r.
  - rewrite IH by (rewrite length_app, length_take; subst k; lia).
    rewrite <-app_assoc, length_app, length_take. do 3 f_equal. subst k. f_equal. lia.
Qed.

Section same_floor.
Context (sort : SortFn) (rooms : Inventory) (num : Z).

(** The Priority 1 loop reads [rooms[floor]] for every floor before it
    gives up, so past it all ten arrays are known to exist. *)
Lemma sameFloor_fallthrough_present (floors : list nat) :
  sameFloor sort rooms num floors = Some None →
  Forall (λ f, is_Some (rooms !! f)) floors.
Proof.
  induction floors as [|f floors IH]; simpl; [by constructor|].
  destruct (rooms !! f) as [arr|] eqn:Hf; simpl; [|done].
  case_match; [done|]. intros Hrest. constructor; eauto.
Qed.

Lemma sameFloor_cases (floors : list nat) :
  Forall (λ f, is_Some (rooms !! f)) floors →
  (∃ pre f post arr,
      floors = pre ++ f :: post
      ∧ Forall (λ g, Z.of_nat (AvailableCount rooms g) < num) pre
      ∧ rooms !! f = Some arr
      ∧ num ≤ Z.of_nat (AvailableCount rooms f)
      ∧ sameFloor sort rooms num floors
        = Some (Some (refOf f arr
                        <$> Js.slice0 (sort _ byNumber (available arr)) num)))
  ∨ (Forall (λ g, Z.of_nat (AvailableCount rooms g) < num) floors
     ∧ sameFloor sort rooms num floors = Some None).
Proof.
  induction 1 as [|f floors [arr Hf] _ IH]; simpl; [by right|].
  rewrite Hf. simpl.
  assert (AvailableCount rooms f = length (available arr)) as Hcount.
  { unfold AvailableCount, AvailableRooms.
    by rewrite (lookup_total_correct _ _ _ Hf). }
  destruct (Z.leb_spec num (Z.of_nat (length (available arr)))) as [Hle|Hgt].
  { left. exists [], f, floors, arr. rewrite Hcount. by split_and!. }
  destruct IH as [(pre & g & post & arr' & -> & Hpre & Hg & Hle & ->)|[Hall ->]].
  - left. exists (f :: pre), g, post, arr'. split_and!; try done.
    constructor; [lia|done].
  - right. split; [|done]. constructor; [lia|done].
Qed.
End same_floor.

(** ** The two comparators *)

Lemma byNumber_consistent : Consistent byNumber.
Proof. unfold byNumber. split; intros; lia. Qed.

Lemma availableLen_count (rooms : Inventory) (f : nat) :
  availableLen rooms f = Z.of_nat (AvailableCount rooms f).
Proof. done. Qed.

(** The comparator of [floors.sort] orders the floors as the ranking does. *)
Lemma byAvailability_ranked (rooms : Inventory) (a b : nat) :
  byAvailability rooms a b ≤ 0 ↔ rankedBefore rooms a b.
Proof.
  unfold byAvailability, rankedBefore. rewrite !availableLen_count.
  case_decide; lia.
Qed.

Lemma byAvailability_consistent (rooms : Inventory) :
  Consistent (byAvailability rooms).
Proof.
  split.
  - intros a b. unfold byAvailability. repeat case_decide; lia.
  - intros a b c. rewrite !byAvailability_ranked. unfold rankedBefore. lia.
Qed.

#[global] Instance rankedBefore_antisymm rooms : AntiSymm (=) (rankedBefore rooms).
Proof. intros a b. unfold rankedBefore. lia. Qed.

Lemma sorted_floors_ranking (sort : SortFn) (rooms : Inventory) :
  SortContract sort → is_ranking rooms (sort _ (byAvailability rooms) allFloors).
Proof.
  intros Hsort.
  destruct (Hsort _ (byAvailability rooms) allFloors) as [Hperm Hsorted].
  { apply byAvailability_consistent. }
  split; [done|].
  eapply StronglySorted_impl; [|exact Hsorted].
  intros a b. apply byAvailability_ranked.
Qed.

(** There is exactly one ranking of the ten floors. *)
Lemma ranking_unique (rooms : Inventory) (l1 l2 : list nat) :
  is_ranking rooms l1 → is_ranking rooms l2 → l1 = l2.
Proof.
  intros [Hp1 Hs1] [Hp2 Hs2].
  apply (StronglySorted_unique (rankedBefore rooms)); [done..|].
  by rewrite Hp1, Hp2.
Qed.

(** ** Independence of the engine's sort *)

Lemma refOf_number (f : nat) (arr : list Room) (l : list Room) :
  refOf f arr <$> l
  = (λ n, mkRef f (Js.findIndex (λ r, number r =? n) arr)) <$> (number <$> l).
Proof. by rewrite <-list_fmap_compose. Qed.

Lemma slice0_fmap {A B} (g : A → B) (l : list A) (num : Z) :
  Js.slice0 (g <$> l) num = g <$> Js.slice0 l num.
Proof. unfold Js.slice0. by rewrite length_fmap, fmap_take. Qed.

Lemma sorted_numbers_unique (sort1 sort2 : SortFn) (l : list Room) :
  SortContract sort1 → SortContract sort2 →
  number <$> sort1 _ byNumber l = number <$> sort2 _ byNumber l.
Proof.
  intros H1 H2.
  destruct (H1 _ byNumber l byNumber_consistent) as [Hp1 Hs1].
  destruct (H2 _ byNumber l byNumber_consistent) as [Hp2 Hs2].
  apply (StronglySorted_unique Z.le).
  - eapply StronglySorted_fmap; [|exact Hs1]. unfold byNumber. intros; lia.
  - eapply StronglySorted_fmap; [|exact Hs2]. unfold byNumber. intros; lia.
  - by rewrite Hp1, Hp2.
Qed.

Lemma sameFloor_engine (sort1 sort2 : SortFn) (rooms : Inventory) (num : Z)
    (floors : list nat) :
  SortContract sort1 → SortContract sort2 →
  sameFloor sort1 rooms num floors = sameFloor sort2 rooms num floors.
Proof.
  intros H1 H2. induction floors as [|f floors IH]; simpl; [done|].
  destruct (rooms !! f) as [arr|]; simpl; [|done].
  case_match; [|done]. do 2 f_equal.
  rewrite !refOf_number, <-!slice0_fmap.
  by rewrite (sorted_numbers_unique sort1 sort2).
Qed.

Lemma findBestAllocationWith_engine (sort1 sort2 : SortFn)
    (rooms : Inventory) (num : Z) :
  SortContract sort1 → SortContract sort2 →
  findBestAllocationWith sort1 rooms num = findBestAllocationWith sort2 rooms num.
Proof.
  intros H1 H2. unfold findBestAllocationWith.
  rewrite (sameFloor_engine sort1 sort2) by done.
  by rewrite (ranking_unique rooms _ _ (sorted_floors_ranking sort1 rooms H1)
                (sorted_floors_ranking sort2 rooms H2)).
Qed.

(** ** The shape of the result *)

Lemma allFloors_split (pre post : list nat) (f : nat) :
  allFloors = pre ++ f :: post →
  (∀ g, g ∈ pre → (g < f)%nat) ∧ (∀ g, g ∈ post → (f < g)%nat).
Proof.
  intros Hsplit.
  assert (StronglySorted lt allFloors) as Hs.
  { unfold allFloors. simpl. repeat constructor; lia. }
  rewrite Hsplit in Hs. apply StronglySorted_app in Hs as (Hpre & _ & Hpost).
  split.
  - intros g Hg. apply Hpre; [done|by left].
  - intros g Hg. apply StronglySorted_inv in Hpost as [_ Hpost].
    by eapply Forall_forall in Hpost.
Qed.

(** On an inventory with its ten floors the routine either returns from the
    Priority 1 loop at the first floor with enough available rooms, or
    returns the first [num] references met on the sorted floors. *)
Lemma findBestAllocation_cases (rooms : Inventory) (num : Z) :
  ten_floors rooms →
  (∃ pre f post arr,
      allFloors = pre ++ f :: post
      ∧ Forall (λ g, Z.of_nat (AvailableCount rooms g) < num) pre
      ∧ rooms !! f = Some arr
      ∧ num ≤ Z.of_nat (AvailableCount rooms f)
      ∧ findBestAllocation rooms num
        = Some (refOf f arr <$> Js.slice0 (Js.sort byNumber (available arr)) num))
  ∨ (Forall (λ g, Z.of_nat (AvailableCount rooms g) < num) allFloors
     ∧ findBestAllocation rooms num
       = Some (take (Z.to_nat num)
                 (Js.sort (byAvailability rooms) allFloors ≫= floorRefs rooms))).
Proof.
  intros Hten.
  assert (Forall (λ f, is_Some (rooms !! f)) allFloors) as Hpresent.
  { apply Forall_forall. intros f Hf. by apply ten_floors_present. }
  unfold findBestAllocation, findBestAllocationWith.
  destruct (sameFloor_cases (@Js.sort) rooms num allFloors Hpresent)
    as [(pre & f & post & arr & Hsplit & Hpre & Hf & Hle & ->)|[Hall ->]].
  - left. by exists pre, f, post, arr.
  - right. split; [done|]. cbn [mbind option_bind].
    rewrite acrossFloors_take.
    + by rewrite app_nil_l, Nat.sub_0_r.
    + by rewrite sort_Permutation.
    + apply Forall_inv in Hall. simpl. lia.
Qed.

Lemma wf_inventory_present (rooms : Inventory) (f : nat) :
  wf_inventory rooms → f ∈ allFloors →
  ∃ arr, rooms !! f = Some arr ∧ ascending arr.
Proof.
  intros Hwf Hf. destruct (ten_floors_present rooms f) as [arr Harr]; [apply Hwf|done|].
  exists arr. split; [done|]. by eapply wf_inventory_ascending.
Qed.

Lemma available_sorted (arr : list Room) :
  ascending arr → Js.sort byNumber (available arr) = available arr.
Proof.
  intros Hs. apply sort_id. apply StronglySorted_filter.
  apply (StronglySorted_fmap_inv number) in Hs.
  eapply StronglySorted_impl; [|exact Hs]. unfold byNumber. intros; lia.
Qed.

(** The references to a floor's available rooms denote those rooms. *)
Lemma AvailableRefs_rooms (rooms : Inventory) (f : nat) (arr : list Room) :
  rooms !! f = Some arr → ascending arr →
  lookupRoom rooms <$> AvailableRefs rooms f = Some <$> AvailableRooms rooms f.
Proof.
  intros Hf Hs. unfold AvailableRefs, AvailableRooms.
  rewrite (lookup_total_correct _ _ _ Hf), merge_sort_unbookedAt by done.
  rewrite <-unbookedAt_snd, <-!list_fmap_compose.
  apply list_fmap_ext. intros _ [i room] Hin%list_elem_of_lookup_2.
  apply unbookedAt_elem in Hin as [Hi _]. simpl.
  unfold lookupRoom, Js.at_index. simpl. rewrite Hf. simpl.
  destruct (Z.ltb_spec (Z.of_nat i) 0); [lia|]. by rewrite Nat2Z.id.
Qed.

(** ** Tier 1: first fit *)

(** Claim C4.  When some floor has at least [num] available rooms, the
    routine returns the first [num] available rooms, in ascending
    room-number order, of the lowest-numbered such floor: whatever the
    higher floors hold plays no part. *)
Theorem C4_first_fit (rooms : Inventory) (num : Z) (f : nat) :
  wf_inventory rooms → 1 ≤ num ≤ 5 → f ∈ allFloors →
  num ≤ Z.of_nat (AvailableCount rooms f) →
  (∀ g, g ∈ allFloors → (g < f)%nat → Z.of_nat (AvailableCount rooms g) < num) →
  findBestAllocation rooms num = Some (sameFloorSelection rooms (Z.to_nat num) f)
  ∧ lookupRoom rooms <$> sameFloorSelection rooms (Z.to_nat num) f
    = Some <$> take (Z.to_nat num) (AvailableRooms rooms f).
Proof.
  intros Hwf Hnum Hf Hfits Hlowest.
  destruct (wf_inventory_present rooms f Hwf Hf) as (arr & Harr & Hasc).
  split.
  - destruct (findBestAllocation_cases rooms num (proj1 Hwf))
      as [(pre & f' & post & arr' & Hsplit & Hpre & Hf' & Hle & ->)|[Hall _]].
    + destruct (allFloors_split pre post f' Hsplit) as [Hlt Hgt].
      assert (f' = f) as ->.
      { destruct (Nat.lt_trichotomy f' f) as [Hlow|[?|Hhigh]]; [|done|].
        - assert (f' ∈ allFloors) as Hin.
          { rewrite Hsplit. apply elem_of_app. right. by left. }
          specialize (Hlowest f' Hin Hlow). lia.
        - assert (f ∈ pre) as Hin.
          { rewrite Hsplit in Hf.
            apply elem_of_app in Hf as [?|[->|Hpost]%elem_of_cons]; [done|lia|].
            apply Hgt in Hpost. lia. }
          eapply Forall_forall in Hpre; [|exact Hin]. simpl in Hpre. lia. }
      simplify_eq. f_equal. unfold sameFloorSelection.
      rewrite available_sorted, slice0_take, fmap_take by (done || lia).
      by rewrite (AvailableRefs_ascending rooms f arr).
    + eapply Forall_forall in Hall; [|exact Hf]. simpl in Hall. lia.
  - unfold sameFloorSelection.
    by rewrite fmap_take, (AvailableRefs_rooms rooms f arr), fmap_take.
Qed.

Lemma C4_first_fit_witness :
  findBestAllocation floor1_nearly_full 3
  = Some (sameFloorSelection floor1_nearly_full 3 2)
  ∧ lookupRoom floor1_nearly_full <$> sameFloorSelection floor1_nearly_full 3 2
    = Some <$> take 3 (AvailableRooms floor1_nearly_full 2).
Proof.
  apply (C4_first_fit floor1_nearly_full 3 2).
  - compute_done.
  - lia.
  - compute_done.
  - compute_done.
  - intros g Hin%elem_of_seq Hg. assert (g = 1%nat) as -> by lia. compute_done.
Defined.

(** ** Tier 2: the cross-floor fallback *)

Lemma fmap_bind_list {A B C} (g : B → C) (h : A → list B) (l : list A) :
  g <$> (l ≫= h) = l ≫= (λ x, g <$> h x).
Proof.
  induction l as [|x l IH]; [done|].
  by rewrite !bind_cons, fmap_app, IH.
Qed.

Lemma floorRefs_AvailableRefs (rooms : Inventory) (floors : list nat) :
  wf_inventory rooms → floors ⊆ allFloors →
  floors ≫= floorRefs rooms = floors ≫= AvailableRefs rooms.
Proof.
  intros Hwf Hsub. apply Forall_bind_ext, Forall_forall. intros f Hf%Hsub.
  destruct (wf_inventory_present rooms f Hwf Hf) as (arr & Harr & Hasc).
  rewrite (AvailableRefs_ascending rooms f arr) by done.
  unfold floorRefs. by rewrite (lookup_total_correct _ _ _ Harr).
Qed.

Lemma AvailableRefs_bind_rooms (rooms : Inventory) (floors : list nat) :
  wf_inventory rooms → floors ⊆ allFloors →
  lookupRoom rooms <$> (floors ≫= AvailableRefs rooms)
  = Some <$> (floors ≫= AvailableRooms rooms).
Proof.
  intros Hwf Hsub. rewrite !fmap_bind_list.
  apply Forall_bind_ext, Forall_forall. intros f Hf%Hsub.
  destruct (wf_inventory_present rooms f Hwf Hf) as (arr & Harr & Hasc).
  by apply (AvailableRefs_rooms rooms f arr).
Qed.

Lemma ranked_refs_length (rooms : Inventory) (ranking : list nat) :
  ranking ≡ₚ allFloors →
  length (ranking ≫= floorRefs rooms) = totalAvailable rooms.
Proof.
  intros Hperm. rewrite bind_length_sum. unfold totalAvailable.
  rewrite Hperm. generalize allFloors. intros l.
  induction l as [|f l IH]; [done|].
  simpl. f_equal; [apply floorRefs_length|apply IH].
Qed.

(** Claim C3.  When no floor alone has [num] available rooms but the ten
    floors together do, the routine returns the selection obtained by
    ranking the floors (more available rooms first, lower floor number
    first among equals) and taking the available rooms of the floors in
    that order, each floor's in ascending room-number order, up to exactly
    [num] rooms.  The ranking exists and is the only one. *)
Theorem C3_cross_floor (rooms : Inventory) (num : Z) :
  wf_inventory rooms → 1 ≤ num ≤ 5 →
  (∀ f, f ∈ allFloors → Z.of_nat (AvailableCount rooms f) < num) →
  num ≤ Z.of_nat (totalAvailable rooms) →
  ∃ ranking,
    is_ranking rooms ranking
    ∧ (∀ other, is_ranking rooms other → other = ranking)
    ∧ findBestAllocation rooms num
      = Some (crossFloorSelection rooms (Z.to_nat num) ranking)
    ∧ length (crossFloorSelection rooms (Z.to_nat num) ranking) = Z.to_nat num
    ∧ lookupRoom rooms <$> crossFloorSelection rooms (Z.to_nat num) ranking
      = Some <$> take (Z.to_nat num) (ranking ≫= AvailableRooms rooms).
Proof.
  intros Hwf Hnum Hnone Htotal.
  set (ranking := Js.sort (byAvailability rooms) allFloors).
  assert (is_ranking rooms ranking) as Hrank.
  { apply (sorted_floors_ranking (@Js.sort)), Js_sort_contract. }
  assert (ranking ⊆ allFloors) as Hsub.
  { intros f. by rewrite (proj1 Hrank). }
  exists ranking. split_and!.
  - done.
  - intros other Hother. by apply (ranking_unique rooms).
  - destruct (findBestAllocation_cases rooms num (proj1 Hwf))
      as [(pre & f & post & arr & Hsplit & _ & _ & Hle & _)|[_ ->]].
    + assert (f ∈ allFloors) as Hin.
      { rewrite Hsplit. apply elem_of_app. right. by left. }
      specialize (Hnone f Hin). lia.
    + unfold crossFloorSelection. fold ranking.
      by rewrite floorRefs_AvailableRefs.
  - unfold crossFloorSelection.
    rewrite <-floorRefs_AvailableRefs, length_take by done.
    rewrite ranked_refs_length by apply Hrank. lia.
  - unfold crossFloorSelection.
    by rewrite fmap_take, AvailableRefs_bind_rooms, fmap_take.
Qed.

Lemma C3_cross_floor_witness :
  ∃ ranking,
    is_ranking scattered ranking
    ∧ (∀ other, is_ranking scattered other → other = ranking)
    ∧ findBestAllocation scattered 3
      = Some (crossFloorSelection scattered 3 ranking)
    ∧ length (crossFloorSelection scattered 3 ranking) = 3%nat
    ∧ lookupRoom scattered <$> crossFloorSelection scattered 3 ranking
      = Some <$> take 3 (ranking ≫= AvailableRooms scattered).
Proof.
  apply (C3_cross_floor scattered 3).
  - compute_done.
  - lia.
  - apply Forall_forall. compute_done.
  - compute_done.
Defined.

(** On [scattered] the ranking starts with floor 2 (two free rooms), then
    floors 1 and 3 (one each): a request for three rooms gets 203, 207, 105. *)
Example cross_floor_scattered :
  is_ranking scattered [2; 1; 3; 4; 5; 6; 7; 8; 9; 10]%nat
  ∧ findBestAllocation scattered 3 = Some [mkRef 2 2; mkRef 2 6; mkRef 1 4]
  ∧ lookupRoom scattered <$> [mkRef 2 2; mkRef 2 6; mkRef 1 4]
    = [Some (mkRoom 203 false); Some (mkRoom 207 false); Some (mkRoom 105 false)].
Proof. split_and!; [compute_done|by vm_compute..]. Qed.

(** ** The length of the result *)

Lemma refOf_resolves (rooms : Inventory) (f : nat) (arr : list Room) (room : Room) :
  rooms !! f = Some arr → room ∈ arr →
  number <$> lookupRoom rooms (refOf f arr room) = Some (number room).
Proof.
  intros Hf Hin. unfold lookupRoom, refOf, Js.findIndex, Js.at_index. simpl.
  rewrite Hf. simpl.
  destruct (findIndex_from_found arr (number room) 0) as (i & r & -> & Hi & Hr).
  { by apply list_elem_of_fmap_2. }
  destruct (Z.ltb_spec (0 + Z.of_nat i) 0); [lia|].
  replace (Z.to_nat (0 + Z.of_nat i)) with i by lia.
  rewrite Hi. simpl. by rewrite Hr.
Qed.

Lemma floorRefs_numbers (rooms : Inventory) (floors : list nat) :
  Forall (λ f, is_Some (rooms !! f)) floors →
  (λ ref, number <$> lookupRoom rooms ref) <$> (floors ≫= floorRefs rooms)
  = (λ room, Some (number room)) <$> (floors ≫= AvailableRooms rooms).
Proof.
  intros Hpresent. rewrite !fmap_bind_list.
  apply Forall_bind_ext. eapply Forall_impl; [exact Hpresent|].
  intros f [arr Hf]. unfold floorRefs, AvailableRooms.
  rewrite (lookup_total_correct _ _ _ Hf), <-list_fmap_compose.
  apply list_fmap_ext. intros _ room Hin%list_elem_of_lookup_2.
  apply list_elem_of_filter in Hin as [_ Hin]. simpl.
  by apply refOf_resolves.
Qed.

(** Claim C6.  For a request of at least one room the routine returns
    min(num, total available) references; when fewer than [num] rooms are
    available it returns all of them, not the empty selection. *)
Theorem C6_selection_length (rooms : Inventory) (num : Z) :
  ten_floors rooms → 1 ≤ num →
  ∃ sel,
    findBestAllocation rooms num = Some sel
    ∧ length sel = Nat.min (Z.to_nat num) (totalAvailable rooms)
    ∧ (Z.of_nat (totalAvailable rooms) < num →
       (λ ref, number <$> lookupRoom rooms ref) <$> sel
       ≡ₚ (λ room, Some (number room)) <$> (allFloors ≫= AvailableRooms rooms)).
Proof.
  intros Hten Hnum.
  assert (Forall (λ f, is_Some (rooms !! f)) allFloors) as Hpresent.
  { apply Forall_forall. intros f Hf. by apply ten_floors_present. }
  destruct (findBestAllocation_cases rooms num Hten)
    as [(pre & f & post & arr & Hsplit & _ & Hf & Hle & ->)|[_ ->]];
    eexists; (split; [done|]).
  - assert ((AvailableCount rooms f ≤ totalAvailable rooms)%nat) as Hsum.
    { apply (sum_list_with_in f (AvailableCount rooms)).
      rewrite Hsplit. apply elem_of_app. right. by left. }
    split; [|lia].
    rewrite length_fmap, slice0_take, length_take, sort_length by lia.
    unfold AvailableCount, AvailableRooms in Hle, Hsum.
    rewrite (lookup_total_correct _ _ _ Hf) in Hle, Hsum. lia.
  - set (ranking := Js.sort (byAvailability rooms) allFloors).
    assert (ranking ≡ₚ allFloors) as Hperm by apply sort_Permutation.
    split.
    + by rewrite length_take, ranked_refs_length.
    + intros Hshort. rewrite take_ge by (rewrite ranked_refs_length; [lia|done]).
      rewrite Hperm. by rewrite floorRefs_numbers.
Qed.

Lemma C6_selection_length_witness :
  ∃ sel,
    findBestAllocation one_room_left 2 = Some sel
    ∧ length sel = Nat.min 2 (totalAvailable one_room_left)
    ∧ (Z.of_nat (totalAvailable one_room_left) < 2 →
       (λ ref, number <$> lookupRoom one_room_left ref) <$> sel
       ≡ₚ (λ room, Some (number room))
            <$> (allFloors ≫= AvailableRooms one_room_left)).
Proof.
  apply (C6_selection_length one_room_left 2).
  - compute_done.
  - lia.
Defined.

(** ** The commit step of bookRooms *)

Lemma markBooked_None (rooms : Inventory) (ref : RoomRef) :
  lookupRoom rooms ref = None → markBooked ref rooms = None.
Proof.
  unfold lookupRoom, markBooked. destruct (rooms !! floor ref); simpl; [|done].
  by intros ->.
Qed.

Lemma markBooked_lookup (rooms : Inventory) (ref : RoomRef) (room : Room) :
  lookupRoom rooms ref = Some room →
  ∃ rooms', markBooked ref rooms = Some rooms'
    ∧ dom rooms' = dom rooms
    ∧ ∀ ref', lookupRoom rooms' ref' = bookedBy [ref] ref' <$> lookupRoom rooms ref'.
Proof.
  unfold lookupRoom, markBooked. destruct ref as [f i]. simpl.
  destruct (rooms !! f) as [arr|] eqn:Hf; simpl; [|done].
  unfold Js.at_index at 1 2.
  destruct (Z.ltb_spec i 0) as [?|Hi]; [done|]. intros Hroom. rewrite Hroom. simpl.
  eexists. split; [done|]. split.
  { apply dom_insert_lookup_L. by rewrite Hf. }
  assert (∀ o : option Room, (λ r, mkRoom (number r) (booked r || false)) <$> o = o)
    as Hid.
  { intros [[n b]|]; simpl; [|done]. by rewrite orb_false_r. }
  intros [f' i']. unfold bookedBy. simpl.
  destruct (decide (f' = f)) as [->|Hne].
  - rewrite lookup_insert_eq, Hf. simpl. unfold Js.at_index.
    destruct (Z.ltb_spec i' 0) as [?|Hi']; [done|].
    destruct (decide (i' = i)) as [->|Hne].
    + rewrite list_lookup_insert_eq by (by eapply lookup_lt_Some).
      rewrite Hroom. simpl. rewrite bool_decide_eq_true_2 by apply list_elem_of_here.
      by rewrite orb_true_r.
    + rewrite list_lookup_insert_ne by lia.
      rewrite <-(Hid (arr !! Z.to_nat i')) at 1.
      destruct (arr !! Z.to_nat i'); simpl; [|done].
      rewrite bool_decide_eq_false_2; [done|].
      intros [=]%list_elem_of_singleton. done.
  - rewrite lookup_insert_ne by done.
    destruct (rooms !! f') as [arr'|]; simpl; [|done].
    rewrite <-(Hid (Js.at_index arr' i')) at 1.
    destruct (Js.at_index arr' i'); simpl; [|done].
    rewrite bool_decide_eq_false_2; [done|].
    intros [=]%list_elem_of_singleton. done.
Qed.

Lemma bookedBy_cons (ref : RoomRef) (sel : list RoomRef) (ref' : RoomRef)
    (o : option Room) :
  bookedBy sel ref' <$> (bookedBy [ref] ref' <$> o) = bookedBy (ref :: sel) ref' <$> o.
Proof.
  destruct o as [[n b]|]; simpl; [|done]. unfold bookedBy. simpl. do 2 f_equal.
  rewrite <-orb_assoc, <-bool_decide_or. f_equal.
  apply bool_decide_ext. by rewrite (elem_of_cons sel), list_elem_of_singleton.
Qed.

(** When every reference denotes a room, the [forEach] runs to its end and
    books exactly the rooms named, whether or not they were booked before. *)
Lemma forEachBook_resolved (sel : list RoomRef) (rooms : Inventory) :
  Forall (λ ref, is_Some (lookupRoom rooms ref)) sel →
  ∃ rooms', forEachBook sel rooms = (rooms', Returned)
    ∧ dom rooms' = dom rooms
    ∧ ∀ ref, lookupRoom rooms' ref = bookedBy sel ref <$> lookupRoom rooms ref.
Proof.
  revert rooms. induction sel as [|ref sel IH]; intros rooms Hall; simpl.
  { exists rooms. split_and!; [done..|].
    intros ref. unfold bookedBy. destruct (lookupRoom rooms ref) as [[n b]|]; [|done].
    simpl. by rewrite orb_false_r. }
  apply Forall_cons in Hall as [[room Hroom] Hall].
  destruct (markBooked_lookup rooms ref room Hroom) as (rooms1 & -> & Hdom1 & Hlook1).
  destruct (IH rooms1) as (rooms' & -> & Hdom & Hlook).
  { eapply Forall_impl; [exact Hall|]. intros ref' Hsome. simpl in Hsome.
    rewrite Hlook1. by apply fmap_is_Some. }
  exists rooms'. split_and!; [done|congruence|].
  intros ref'. by rewrite Hlook, Hlook1, bookedBy_cons.
Qed.

(** A reference that denotes no room stops the [forEach] with a
    [TypeError]; the rooms named before it stay booked. *)
Lemma forEachBook_throws (pre post : list RoomRef) (ref : RoomRef)
    (rooms : Inventory) :
  Forall (λ ref, is_Some (lookupRoom rooms ref)) pre →
  lookupRoom rooms ref = None →
  ∃ rooms', forEachBook pre rooms = (rooms', Returned)
    ∧ forEachBook (pre ++ ref :: post) rooms = (rooms', ThrewTypeError).
Proof.
  revert rooms. induction pre as [|ref0 pre IH]; intros rooms Hall Hnone; simpl.
  { exists rooms. by rewrite markBooked_None. }
  apply Forall_cons in Hall as [[room Hroom] Hall].
  destruct (markBooked_lookup rooms ref0 room Hroom) as (rooms1 & -> & _ & Hlook1).
  apply IH.
  - eapply Forall_impl; [exact Hall|]. intros ref' Hsome. simpl in Hsome.
    rewrite Hlook1. by apply fmap_is_Some.
  - by rewrite Hlook1, Hnone.
Qed.

(** ** What a selection refers to *)

Lemma AvailableRefs_elem (rooms : Inventory) (f : nat) (ref : RoomRef) :
  ref ∈ AvailableRefs rooms f →
  floor ref = f ∧ ∃ room, lookupRoom rooms ref = Some room ∧ booked room = false.
Proof.
  unfold AvailableRefs. intros ([i room] & -> & Hin)%list_elem_of_fmap.
  rewrite merge_sort_Permutation in Hin.
  apply unbookedAt_elem in Hin as [Hi Hfree]. split; [done|].
  exists room. split; [|done]. unfold lookupRoom, Js.at_index. simpl.
  destruct (rooms !! f) as [arr|] eqn:Hf.
  - rewrite (lookup_total_correct _ _ _ Hf) in Hi. simpl.
    destruct (Z.ltb_spec (Z.of_nat i) 0); [lia|]. by rewrite Nat2Z.id.
  - rewrite lookup_total_alt, Hf in Hi. done.
Qed.

Lemma AvailableRefs_NoDup (rooms : Inventory) (f : nat) :
  NoDup (AvailableRefs rooms f).
Proof.
  unfold AvailableRefs.
  change (λ p : nat * Room, mkRef f (Z.of_nat p.1))
    with ((λ i, mkRef f (Z.of_nat i)) ∘ (fst : nat * Room → nat)).
  rewrite list_fmap_compose.
  apply NoDup_fmap_2.
  { intros i j [= Hij]. lia. }
  rewrite merge_sort_Permutation.
  pose proof (unbookedAt_positions_sorted (rooms !!! f)) as Hs.
  apply (StronglySorted_fmap fst _ lt) in Hs; [|done].
  induction Hs as [|i l _ IH Hi]; constructor; [|done].
  intros Hin. eapply Forall_forall in Hi; [|exact Hin]. lia.
Qed.

Lemma selection_NoDup (rooms : Inventory) (floors : list nat) (n : nat) :
  NoDup floors → NoDup (take n (floors ≫= AvailableRefs rooms)).
Proof.
  intros Hfloors. eapply sublist_NoDup; [|apply sublist_take].
  apply NoDup_bind; [|intros; apply AvailableRefs_NoDup|done].
  intros f1 f2 ref _ _ [<- _]%AvailableRefs_elem [<- _]%AvailableRefs_elem. done.
Qed.

Lemma selection_available (rooms : Inventory) (floors : list nat) (n : nat) :
  Forall (λ ref, ∃ room, lookupRoom rooms ref = Some room ∧ booked room = false)
         (take n (floors ≫= AvailableRefs rooms)).
Proof.
  apply Forall_take, Forall_bind, Forall_forall. intros f _.
  apply Forall_forall. intros ref Href. by apply AvailableRefs_elem in Href as [_ ?].
Qed.

(** On a well-formed inventory the result is always a prefix of the
    available rooms of distinct floors. *)
Lemma findBestAllocation_wf (rooms : Inventory) (num : Z) :
  wf_inventory rooms → 1 ≤ num →
  ∃ floors, NoDup floors
    ∧ findBestAllocation rooms num
      = Some (take (Z.to_nat num) (floors ≫= AvailableRefs rooms)).
Proof.
  intros Hwf Hnum.
  destruct (findBestAllocation_cases rooms num (proj1 Hwf))
    as [(pre & f & post & arr & Hsplit & _ & Hf & _ & ->)|[_ ->]].
  - exists [f]. split; [apply NoDup_singleton|].
    assert (ascending arr) as Hasc by (by eapply wf_inventory_ascending).
    rewrite available_sorted, slice0_take, fmap_take by (done || lia).
    rewrite <-(AvailableRefs_ascending rooms f arr) by done.
    by rewrite bind_cons, app_nil_r.
  - exists (Js.sort (byAvailability rooms) allFloors). split.
    + rewrite sort_Permutation. apply NoDup_seq.
    + rewrite floorRefs_AvailableRefs; [done..|].
      intros f. by rewrite sort_Permutation.
Qed.

(** Claim C5.  On a well-formed inventory and for a request of 1 to 5 rooms
    the routine returns references that each denote a room of the inventory
    that is not booked, no reference twice; committing that selection on the
    same inventory runs to its end. *)
Theorem C5_selection_sound (rooms : Inventory) (num : Z) :
  wf_inventory rooms → 1 ≤ num ≤ 5 →
  ∃ sel,
    findBestAllocation rooms num = Some sel
    ∧ Forall (λ ref, ∃ room, lookupRoom rooms ref = Some room ∧ booked room = false) sel
    ∧ NoDup sel
    ∧ ¬ InvalidSelection rooms sel
    ∧ ∃ rooms', commitAllocation sel rooms = ([SetRooms rooms'], rooms', Returned).
Proof.
  intros Hwf [Hnum _].
  destruct (findBestAllocation_wf rooms num Hwf Hnum) as (floors & Hnodup & ->).
  eexists. split; [done|].
  pose proof (selection_available rooms floors (Z.to_nat num)) as Havail.
  split_and!; [done|by apply selection_NoDup| |].
  - unfold InvalidSelection. rewrite Exists_exists.
    intros (ref & Hin & Hbad).
    eapply Forall_forall in Havail as (room & Hroom & Hfree); [|exact Hin].
    rewrite Hroom in Hbad. congruence.
  - unfold commitAllocation.
    destruct (forEachBook_resolved (take (Z.to_nat num) (floors ≫= AvailableRefs rooms)) rooms)
      as (rooms' & -> & _).
    + eapply Forall_impl; [exact Havail|]. intros ref (room & -> & _). by eexists.
    + by exists rooms'.
Qed.

Lemma C5_selection_sound_witness :
  ∃ sel,
    findBestAllocation scattered 3 = Some sel
    ∧ Forall (λ ref, ∃ room, lookupRoom scattered ref = Some room
                             ∧ booked room = false) sel
    ∧ NoDup sel
    ∧ ¬ InvalidSelection scattered sel
    ∧ ∃ rooms', commitAllocation sel scattered = ([SetRooms rooms'], rooms', Returned).
Proof.
  apply (C5_selection_sound scattered 3).
  - compute_done.
  - lia.
Defined.

(** ** bookRooms *)

(** Claim C2, as the code has it.  The commit step checks nothing.  If every
    reference denotes a room it runs to its end and calls [setRooms]: each
    room named is booked afterwards, also one that was booked already, and
    no other room changes.  A reference that denotes no room stops it with
    a [TypeError] before [setRooms], the references before it applied. *)
Theorem C2_commit_unchecked (rooms : Inventory) (sel : list RoomRef) :
  (Forall (λ ref, is_Some (lookupRoom rooms ref)) sel →
   ∃ rooms', commitAllocation sel rooms = ([SetRooms rooms'], rooms', Returned)
     ∧ dom rooms' = dom rooms
     ∧ ∀ ref, lookupRoom rooms' ref = bookedBy sel ref <$> lookupRoom rooms ref)
  ∧ (∀ pre ref post,
       sel = pre ++ ref :: post →
       Forall (λ ref, is_Some (lookupRoom rooms ref)) pre →
       lookupRoom rooms ref = None →
       ∃ rooms', forEachBook pre rooms = (rooms', Returned)
         ∧ commitAllocation sel rooms = ([], rooms', ThrewTypeError)).
Proof.
  split.
  - intros Hall. unfold commitAllocation.
    destruct (forEachBook_resolved sel rooms Hall) as (rooms' & -> & Hdom & Hlook).
    by exists rooms'.
  - intros pre ref post -> Hpre Hnone. unfold commitAllocation.
    destruct (forEachBook_throws pre post ref rooms Hpre Hnone) as (rooms' & Hrun & ->).
    by exists rooms'.
Qed.

Lemma C2_commit_unchecked_witness :
  (∃ rooms', commitAllocation [mkRef 1 0; mkRef 1 1] room101_booked
             = ([SetRooms rooms'], rooms', Returned)
     ∧ dom rooms' = dom room101_booked
     ∧ ∀ ref, lookupRoom rooms' ref
              = bookedBy [mkRef 1 0; mkRef 1 1] ref <$> lookupRoom room101_booked ref)
  ∧ (∃ rooms', forEachBook [mkRef 1 1] room101_booked = (rooms', Returned)
       ∧ commitAllocation [mkRef 1 1; mkRef 11 0] room101_booked
         = ([], rooms', ThrewTypeError)).
Proof.
  split.
  - apply (proj1 (C2_commit_unchecked room101_booked [mkRef 1 0; mkRef 1 1])).
    compute_done.
  - apply (proj2 (C2_commit_unchecked room101_booked [mkRef 1 1; mkRef 11 0])
             [mkRef 1 1] (mkRef 11 0) []).
    + reflexivity.
    + compute_done.
    + reflexivity.
Defined.

(** Claim C2 fails as stated: a selection that names the booked room 101 is
    committed without any error, and [setRooms] is called. *)
Lemma C2_counterexample :
  InvalidSelection room101_booked [mkRef 1 0]
  ∧ commitAllocation [mkRef 1 0] room101_booked
    = ([SetRooms room101_booked], room101_booked, Returned).
Proof. split; [|by vm_compute]. apply Exists_cons_hd. by vm_compute. Qed.

(** A selection whose second reference denotes no room: the first room is
    booked by the time the [TypeError] is thrown. *)
Example commit_partial :
  commitAllocation [mkRef 1 0; mkRef 11 0] initializeRooms
  = ([], room101_booked, ThrewTypeError).
Proof. by vm_compute. Qed.

(** Claim C7.  A count below 1 or above 5 is turned away by the first test
    of [bookRooms]: the only event is the alert, [findBestAllocation] is not
    called, [setRooms] is not called and the rooms are as before. *)
Theorem C7_invalid_request (rooms : Inventory) (num : Z) :
  num < 1 ∨ num > 5 →
  bookRooms rooms num
  = mkRun [Alert "You can book between 1 to 5 rooms at a time."] rooms Returned
  ∧ (∀ n, CallFindBestAllocation n ∉ trace (bookRooms rooms num))
  ∧ (∀ updatedRooms, SetRooms updatedRooms ∉ trace (bookRooms rooms num))
  ∧ store (bookRooms rooms num) = rooms.
Proof.
  intros Hnum. unfold bookRooms.
  assert ((num <? 1) || (num >? 5) = true) as ->.
  { apply orb_true_iff. rewrite Z.ltb_lt, Z.gtb_gt. lia. }
  split_and!; [done| | |done]; simpl.
  - intros n [=]%list_elem_of_singleton.
  - intros r [=]%list_elem_of_singleton.
Qed.

Lemma C7_invalid_request_witness :
  bookRooms initializeRooms 6
  = mkRun [Alert "You can book between 1 to 5 rooms at a time."]
          initializeRooms Returned
  ∧ (∀ n, CallFindBestAllocation n ∉ trace (bookRooms initializeRooms 6))
  ∧ (∀ updatedRooms, SetRooms updatedRooms ∉ trace (bookRooms initializeRooms 6))
  ∧ store (bookRooms initializeRooms 6) = initializeRooms.
Proof. apply (C7_invalid_request initializeRooms 6). right. lia. Defined.

(** A count from 1 to 5 does reach the allocation routine. *)
Lemma bookRooms_valid_calls (rooms : Inventory) (num : Z) :
  1 ≤ num ≤ 5 → CallFindBestAllocation num ∈ trace (bookRooms rooms num).
Proof.
  intros Hnum. unfold bookRooms.
  assert ((num <? 1) || (num >? 5) = false) as ->.
  { apply orb_false_iff. rewrite Z.ltb_ge, Z.gtb_ltb, Z.ltb_ge. lia. }
  destruct (findBestAllocation rooms num) as [allocation|];
    [|apply list_elem_of_here].
  case_decide; [apply list_elem_of_here|].
  destruct (commitAllocation allocation rooms) as [[events rooms'] c].
  apply list_elem_of_here.
Qed.

(** Claim C1 at a failing input.  With room 101 the only free room and two
    rooms asked for, fewer rooms are available than requested, yet the
    routine returns the one-room selection and [bookRooms], which only
    tests for the empty selection, books it. *)
Theorem C1_partial_booking :
  totalAvailable one_room_left = 1%nat
  ∧ findBestAllocation one_room_left 2 = Some [mkRef 1 0]
  ∧ bookRooms one_room_left 2
    = mkRun [CallFindBestAllocation 2; SetRooms fully_booked] fully_booked Returned
  ∧ store (bookRooms one_room_left 2) ≠ one_room_left.
Proof. split_and!; [by vm_compute..|]. compute_done. Qed.

(** The same happens in a session that only ever books: after nineteen
    requests for five rooms two rooms are left, and a twentieth request for
    five books both. *)
Example partial_booking_reachable :
  totalAvailable (afterBookings 19 initializeRooms) = 2%nat
  ∧ length <$> findBestAllocation (afterBookings 19 initializeRooms) 5 = Some 2%nat
  ∧ bookRooms (afterBookings 19 initializeRooms) 5
    = mkRun [CallFindBestAllocation 5; SetRooms fully_booked] fully_booked Returned.
Proof. split_and!; by vm_compute. Qed.

(** With no room left at all the empty selection is returned and nothing
    is booked. *)
Example no_room_left :
  findBestAllocation fully_booked 1 = Some []
  ∧ bookRooms fully_booked 1
    = mkRun [CallFindBestAllocation 1;
             Alert "Not enough rooms available to fulfill the booking."]
            fully_booked Returned.
Proof. split; by vm_compute. Qed.

(** ** initializeRooms *)

(** Claim C8.  The initial inventory has the floors 1 to 10; floor [f] up to
    9 lists the ten rooms [f*100+1 .. f*100+10] and floor 10 the seven rooms
    1001 .. 1007, in that order; no room is booked; there are 97 rooms and
    no room number occurs twice. *)
Theorem C8_initial_layout :
  dom initializeRooms = list_to_set (seq 1 10)
  ∧ Forall (λ f : nat,
       initializeRooms !! f
       = Some ((λ i : nat, mkRoom (Z.of_nat f * 100 + Z.of_nat i) false) <$> seq 1 10))
      (seq 1 9)
  ∧ initializeRooms !! 10%nat
    = Some ((λ i : nat, mkRoom (1000 + Z.of_nat i) false) <$> seq 1 7)
  ∧ Forall (λ room, booked room = false) (allRooms initializeRooms)
  ∧ length (allRooms initializeRooms) = 97%nat
  ∧ NoDup (number <$> allRooms initializeRooms)
  ∧ wf_inventory initializeRooms.
Proof. split_and!; compute_done. Qed.

(** ** Scenarios *)

(** On the fresh inventory a request for three rooms gets 101, 102, 103. *)
Example scenario1 :
  findBestAllocation initializeRooms 3 = Some [mkRef 1 0; mkRef 1 1; mkRef 1 2]
  ∧ lookupRoom initializeRooms <$> [mkRef 1 0; mkRef 1 1; mkRef 1 2]
    = [Some (mkRoom 101 false); Some (mkRoom 102 false); Some (mkRoom 103 false)].
Proof. split; by vm_compute. Qed.


(** Claim C9.  With rooms 101 and 102 booked and the rest of the initial
    inventory free, floor 1 has 8 available rooms and a request for three
    returns from the same-floor loop with the rooms 103, 104, 105. *)
Theorem C9_scenario2 :
  store (bookRooms initializeRooms 2) = scenario2
  ∧ AvailableCount scenario2 1 = 8%nat
  ∧ sameFloor (@Js.sort) scenario2 3 allFloors
    = Some (Some [mkRef 1 2; mkRef 1 3; mkRef 1 4])
  ∧ findBestAllocation scenario2 3 = Some [mkRef 1 2; mkRef 1 3; mkRef 1 4]
  ∧ lookupRoom scenario2 <$> [mkRef 1 2; mkRef 1 3; mkRef 1 4]
    = [Some (mkRoom 103 false); Some (mkRoom 104 false); Some (mkRoom 105 false)].
Proof. split_and!; by vm_compute. Qed.

(** ** Determinism *)

(** Claim C10.  The result is a function of the inventory and the count
    alone: whatever sort the engine provides, as long as it meets the
    contract of [Array.prototype.sort], two calls on the same arguments
    return the same selection in the same order, or both throw. *)
Theorem C10_deterministic (sort1 sort2 : SortFn) (rooms : Inventory) (num : Z) :
  SortContract sort1 → SortContract sort2 →
  findBestAllocationWith sort1 rooms num = findBestAllocationWith sort2 rooms num.
Proof. apply findBestAllocationWith_engine. Qed.

Lemma C10_deterministic_witness :
  findBestAllocationWith (@Js.sort) scattered 3
  = findBestAllocationWith mergeSortFn scattered 3.
Proof.
  apply (C10_deterministic (@Js.sort) mergeSortFn scattered 3).
  - apply Js_sort_contract.
  - apply mergeSortFn_contract.
Defined.

(** * Further properties of the handlers *)

(** ** What bookRooms keeps *)

(** However the [forEach] ends, what it has done is to book the rooms of a
    prefix of the selection. *)
Lemma forEachBook_applied (sel : list RoomRef) (rooms : Inventory) :
  ∃ applied,
    applied `prefix_of` sel
    ∧ ((forEachBook sel rooms).2 = Returned → applied = sel)
    ∧ dom (forEachBook sel rooms).1 = dom rooms
    ∧ ∀ ref, lookupRoom (forEachBook sel rooms).1 ref
             = bookedBy applied ref <$> lookupRoom rooms ref.
Proof.
  revert rooms. induction sel as [|ref sel IH]; intros rooms.
  { destruct (forEachBook_resolved [] rooms) as (rooms' & Hrun & Hdom & Hlook);
      [done|].
    exists []. rewrite Hrun. by split_and!. }
  destruct (lookupRoom rooms ref) as [room|] eqn:Hroom.
  - destruct (markBooked_lookup rooms ref room Hroom) as (rooms1 & Hmark & Hdom1 & Hlook1).
    destruct (IH rooms1) as (applied & Hpre & Hall & Hdom & Hlook).
    exists (ref :: applied). simpl. rewrite Hmark. split_and!.
    + by apply prefix_cons.
    + intros Hret. by rewrite Hall.
    + congruence.
    + intros ref'. by rewrite Hlook, Hlook1, bookedBy_cons.
  - destruct (forEachBook_resolved [] rooms) as (rooms' & [= <-] & _ & Hlook);
      [done|].
    exists []. simpl. rewrite (markBooked_None rooms ref Hroom). simpl.
    split_and!; [apply prefix_nil|done|done|done].
Qed.

Lemma lookupRoom_position (rooms : Inventory) (f i : nat) :
  lookupRoom rooms (mkRef f (Z.of_nat i)) = arr ← rooms !! f; arr !! i.
Proof.
  unfold lookupRoom, Js.at_index. simpl.
  destruct (rooms !! f); simpl; [|done].
  destruct (Z.ltb_spec (Z.of_nat i) 0); [lia|]. by rewrite Nat2Z.id.
Qed.

(** Two inventories with the same floors whose references denote rooms of
    the same numbers have the same layout. *)
Lemma lookupRoom_layout (rooms rooms' : Inventory) :
  dom rooms' = dom rooms →
  (∀ ref, number <$> lookupRoom rooms' ref = number <$> lookupRoom rooms ref) →
  layout rooms' = layout rooms.
Proof.
  intros Hdom Hlook. apply map_eq. intros f. unfold layout.
  rewrite !lookup_fmap.
  destruct (rooms !! f) as [arr|] eqn:Hf.
  - assert (is_Some (rooms' !! f)) as [arr' Hf'].
    { apply elem_of_dom. rewrite Hdom. apply elem_of_dom. by rewrite Hf. }
    rewrite Hf'. simpl. f_equal. apply list_eq. intros i.
    rewrite !list_lookup_fmap.
    specialize (Hlook (mkRef f (Z.of_nat i))).
    by rewrite !lookupRoom_position, Hf, Hf' in Hlook.
  - assert (rooms' !! f = None) as ->; [|done].
    apply not_elem_of_dom. rewrite Hdom. by apply not_elem_of_dom.
Qed.

Lemma bookedBy_number (sel : list RoomRef) (ref : RoomRef) (o : option Room) :
  number <$> (bookedBy sel ref <$> o) = number <$> o.
Proof. by destruct o. Qed.

(** Well-formedness is a property of the layout alone. *)
Lemma wf_inventory_layout (rooms rooms' : Inventory) :
  layout rooms' = layout rooms → wf_inventory rooms → wf_inventory rooms'.
Proof.
  intros Hlay [Hten Hasc]. split.
  - unfold ten_floors in *.
    rewrite <-(dom_fmap_L (λ arr : list Room, number <$> arr) rooms').
    fold (layout rooms'). rewrite Hlay. unfold layout. by rewrite dom_fmap_L.
  - intros f arr' Hf'.
    assert (layout rooms' !! f = Some (number <$> arr')) as Hl.
    { unfold layout. by rewrite lookup_fmap, Hf'. }
    rewrite Hlay in Hl. unfold layout in Hl. rewrite lookup_fmap in Hl.
    destruct (rooms !! f) as [arr|] eqn:Hf; [|done].
    simpl in Hl. injection Hl as Hl.
    unfold ascending. rewrite <-Hl. by apply (Hasc f arr).
Qed.

(** Whatever [bookRooms] does, it books some rooms and changes nothing else. *)
Lemma bookRooms_applied (rooms : Inventory) (num : Z) :
  ∃ applied,
    dom (store (bookRooms rooms num)) = dom rooms
    ∧ ∀ ref, lookupRoom (store (bookRooms rooms num)) ref
             = bookedBy applied ref <$> lookupRoom rooms ref.
Proof.
  assert (∀ ref, lookupRoom rooms ref = bookedBy [] ref <$> lookupRoom rooms ref)
    as Hnil.
  { intros ref. destruct (forEachBook_resolved [] rooms) as (? & [= <-] & _ & H);
      [done|]. apply H. }
  unfold bookRooms. case_match; [by exists []|].
  destruct (findBestAllocation rooms num) as [allocation|]; [|by exists []].
  case_decide; [by exists []|]. unfold commitAllocation.
  destruct (forEachBook_applied allocation rooms) as (applied & _ & _ & Hdom & Hlook).
  exists applied. by destruct (forEachBook allocation rooms) as [rooms' []].
Qed.

Lemma bookRooms_layout (rooms : Inventory) (num : Z) :
  layout (store (bookRooms rooms num)) = layout rooms.
Proof.
  destruct (bookRooms_applied rooms num) as (applied & Hdom & Hlook).
  apply lookupRoom_layout; [done|]. intros ref.
  by rewrite Hlook, bookedBy_number.
Qed.

(** Extra X1.  Whatever the inventory and the count, valid or not, and
    however the call ends, [bookRooms] leaves the floors and the room
    numbers as they were and never turns a booked room into a free one. *)
Theorem bookRooms_keeps_rooms (rooms : Inventory) (num : Z) :
  layout (store (bookRooms rooms num)) = layout rooms
  ∧ ∀ ref room,
      lookupRoom rooms ref = Some room → booked room = true →
      lookupRoom (store (bookRooms rooms num)) ref = Some room.
Proof.
  split; [apply bookRooms_layout|].
  destruct (bookRooms_applied rooms num) as (applied & Hdom & Hlook).
  intros ref [n b] Href Hb. rewrite Hlook, Href. simpl in *. by rewrite Hb.
Qed.

(** ** How many rooms a booking takes *)

Lemma AvailableRefs_elem_iff (rooms : Inventory) (f : nat) (ref : RoomRef) :
  ref ∈ AvailableRefs rooms f
  ↔ floor ref = f ∧ ∃ room, lookupRoom rooms ref = Some room ∧ booked room = false.
Proof.
  split; [apply AvailableRefs_elem|].
  intros [<- (room & Hroom & Hfree)]. destruct ref as [f i].
  unfold lookupRoom, Js.at_index in Hroom. simpl in *.
  destruct (rooms !! f) as [arr|] eqn:Hf; simpl in Hroom; [|done].
  destruct (Z.ltb_spec i 0) as [?|Hi]; [done|].
  unfold AvailableRefs. apply list_elem_of_fmap.
  exists (Z.to_nat i, room). split.
  { simpl. f_equal. lia. }
  rewrite merge_sort_Permutation, (lookup_total_correct _ _ _ Hf).
  by apply unbookedAt_elem.
Qed.

Lemma freeRefs_elem (rooms : Inventory) (ref : RoomRef) :
  ref ∈ freeRefs rooms
  ↔ floor ref ∈ allFloors
    ∧ ∃ room, lookupRoom rooms ref = Some room ∧ booked room = false.
Proof.
  unfold freeRefs. rewrite list_elem_of_bind. split.
  - intros (f & [<- Hroom]%AvailableRefs_elem_iff & Hf). done.
  - intros [Hf Hroom]. exists (floor ref). split; [|done].
    by apply AvailableRefs_elem_iff.
Qed.

Lemma freeRefs_NoDup (rooms : Inventory) : NoDup (freeRefs rooms).
Proof.
  unfold freeRefs.
  rewrite <-(take_ge (allFloors ≫= AvailableRefs rooms)
               (length (allFloors ≫= AvailableRefs rooms))) by done.
  apply selection_NoDup, NoDup_seq.
Qed.

Lemma freeRefs_length (rooms : Inventory) :
  length (freeRefs rooms) = totalAvailable rooms.
Proof.
  unfold freeRefs, totalAvailable. rewrite bind_length_sum.
  generalize allFloors. intros l. induction l as [|f l IH]; [done|].
  simpl. f_equal; [apply AvailableRefs_length|apply IH].
Qed.

(** Booking a selection of free rooms takes exactly those rooms out of the
    free rooms. *)
Lemma freeRefs_booked (rooms rooms' : Inventory) (sel : list RoomRef) :
  NoDup sel → sel ⊆ freeRefs rooms →
  (∀ ref, lookupRoom rooms' ref = bookedBy sel ref <$> lookupRoom rooms ref) →
  sel ++ freeRefs rooms' ≡ₚ freeRefs rooms.
Proof.
  intros Hnodup Hsub Hlook.
  assert (∀ ref, ref ∈ freeRefs rooms' ↔ ref ∈ freeRefs rooms ∧ ref ∉ sel) as Hfree.
  { intros ref. rewrite !freeRefs_elem, Hlook. unfold bookedBy.
    destruct (lookupRoom rooms ref) as [[n b]|]; simpl.
    - split.
      + intros (Hf & room & [= <-] & Hb). simpl in Hb.
        apply orb_false_iff in Hb as [-> Hsel%bool_decide_eq_false].
        split; [|done]. split; [done|]. by eexists.
      + intros [(Hf & room & [= <-] & Hb) Hsel]. simpl in Hb. split; [done|].
        eexists. split; [done|]. simpl.
        by rewrite Hb, bool_decide_eq_false_2.
    - split; [by intros (_ & ? & [=] & _)|by intros [(_ & ? & [=] & _) _]]. }
  apply NoDup_Permutation.
  - apply NoDup_app. split_and!; [done| |apply freeRefs_NoDup].
    intros ref Hin [_ Hnot]%Hfree. done.
  - apply freeRefs_NoDup.
  - intros ref. rewrite elem_of_app, Hfree. split.
    + intros [Hin|[Hin _]]; [by apply Hsub|done].
    + intros Hin. destruct (decide (ref ∈ sel)); [by left|by right].
Qed.

(** The result on an inventory with its ten floors: its length. *)
Lemma findBestAllocation_length (rooms : Inventory) (num : Z) :
  ten_floors rooms → 1 ≤ num →
  ∃ sel, findBestAllocation rooms num = Some sel
    ∧ length sel = Nat.min (Z.to_nat num) (totalAvailable rooms).
Proof.
  intros Hten Hnum.
  destruct (findBestAllocation_cases rooms num Hten)
    as [(pre & f & post & arr & Hsplit & _ & Hf & Hle & ->)|[_ ->]];
    eexists; (split; [done|]).
  - assert ((AvailableCount rooms f ≤ totalAvailable rooms)%nat) as Hsum.
    { apply (sum_list_with_in f (AvailableCount rooms)).
      rewrite Hsplit. apply elem_of_app. right. by left. }
    rewrite length_fmap, slice0_take, length_take, sort_length by lia.
    unfold AvailableCount, AvailableRooms in Hle, Hsum.
    rewrite (lookup_total_correct _ _ _ Hf) in Hle, Hsum. lia.
  - rewrite length_take, ranked_refs_length; [done|apply sort_Permutation].
Qed.

(** The result on a well-formed inventory: free rooms of the ten floors,
    none twice. *)
Lemma findBestAllocation_free (rooms : Inventory) (num : Z) (sel : list RoomRef) :
  wf_inventory rooms → 1 ≤ num → findBestAllocation rooms num = Some sel →
  NoDup sel ∧ sel ⊆ freeRefs rooms.
Proof.
  intros Hwf Hnum Hsel.
  destruct (findBestAllocation_cases rooms num (proj1 Hwf))
    as [(pre & f & post & arr & Hsplit & _ & Hf & _ & Heq)|[_ Heq]];
    (assert (Some sel = _) as Heq' by (rewrite <-Hsel; exact Heq));
    apply (inj Some) in Heq' as ->; clear Heq Hsel.
  - assert (ascending arr) as Hasc by (by eapply wf_inventory_ascending).
    assert (f ∈ allFloors) as Hin.
    { rewrite Hsplit. apply elem_of_app. right. by left. }
    rewrite available_sorted, slice0_take, fmap_take by (done || lia).
    rewrite <-(AvailableRefs_ascending rooms f arr) by done.
    split.
    + eapply sublist_NoDup; [apply AvailableRefs_NoDup|apply sublist_take].
    + intros ref Href%elem_of_take. destruct Href as (i & Hi%list_elem_of_lookup_2 & _).
      unfold freeRefs. apply list_elem_of_bind. by exists f.
  - assert (Js.sort (byAvailability rooms) allFloors ⊆ allFloors) as Hsub.
    { intros f. by rewrite sort_Permutation. }
    rewrite floorRefs_AvailableRefs by done. split.
    + apply selection_NoDup. rewrite sort_Permutation. apply NoDup_seq.
    + intros ref Href%elem_of_take. destruct Href as (i & Hi%list_elem_of_lookup_2 & _).
      apply list_elem_of_bind in Hi as (f & Href & Hf%Hsub).
      unfold freeRefs. apply list_elem_of_bind. by exists f.
Qed.

(** What a valid request does to a well-formed inventory: the call returns,
    the rooms of the selection are booked and nothing else changes. *)
Lemma bookRooms_wf (rooms : Inventory) (num : Z) :
  wf_inventory rooms → 1 ≤ num ≤ 5 →
  ∃ sel, findBestAllocation rooms num = Some sel
    ∧ length sel = Nat.min (Z.to_nat num) (totalAvailable rooms)
    ∧ NoDup sel ∧ sel ⊆ freeRefs rooms
    ∧ completion (bookRooms rooms num) = Returned
    ∧ dom (store (bookRooms rooms num)) = dom rooms
    ∧ ∀ ref, lookupRoom (store (bookRooms rooms num)) ref
             = bookedBy sel ref <$> lookupRoom rooms ref.
Proof.
  intros Hwf Hnum.
  destruct (findBestAllocation_length rooms num (proj1 Hwf)) as (sel & Hsel & Hlen);
    [lia|].
  destruct (findBestAllocation_free rooms num sel Hwf) as [Hnodup Hsub]; [lia|done|].
  exists sel. split_and!; [done..| | |].
  all: unfold bookRooms.
  all: assert ((num <? 1) || (num >? 5) = false) as ->
    by (apply orb_false_iff; rewrite Z.ltb_ge, Z.gtb_ltb, Z.ltb_ge; lia).
  all: rewrite Hsel.
  all: destruct (forEachBook_resolved sel rooms) as (rooms' & Hrun & Hdom & Hlook);
    [apply Forall_forall; intros ref (_ & room & -> & _)%Hsub%freeRefs_elem;
     by eexists|].
  all: unfold commitAllocation; rewrite Hrun.
  all: case_decide as Hempty; simpl; try done.
  apply length_zero_iff_nil in Hempty as ->.
  destruct (forEachBook_resolved [] rooms) as (? & [= <-] & _ & H); [done|].
  apply H.
Qed.

(** Extra X2.  On a well-formed inventory a request for 1 to 5 rooms always
    returns normally, leaves the inventory well-formed, and lowers the
    number of free rooms by min(num, free rooms): by [num] when enough rooms
    are free, and to zero otherwise. *)
Theorem bookRooms_books_min (rooms : Inventory) (num : Z) :
  wf_inventory rooms → 1 ≤ num ≤ 5 →
  completion (bookRooms rooms num) = Returned
  ∧ wf_inventory (store (bookRooms rooms num))
  ∧ totalAvailable (store (bookRooms rooms num))
    = (totalAvailable rooms - Nat.min (Z.to_nat num) (totalAvailable rooms))%nat.
Proof.
  intros Hwf Hnum.
  destruct (bookRooms_wf rooms num Hwf Hnum)
    as (sel & _ & Hlen & Hnodup & Hsub & Hret & Hdom & Hlook).
  split_and!; [done| |].
  - eapply wf_inventory_layout; [|exact Hwf].
    apply lookupRoom_layout; [done|]. intros ref.
    by rewrite Hlook, bookedBy_number.
  - pose proof (freeRefs_booked rooms _ sel Hnodup Hsub Hlook) as Hperm.
    apply Permutation_length in Hperm.
    rewrite length_app, !freeRefs_length in Hperm. lia.
Qed.

Lemma bookRooms_books_min_witness :
  completion (bookRooms one_room_left 2) = Returned
  ∧ wf_inventory (store (bookRooms one_room_left 2))
  ∧ totalAvailable (store (bookRooms one_room_left 2))
    = (totalAvailable one_room_left - Nat.min 2 (totalAvailable one_room_left))%nat.
Proof. apply (bookRooms_books_min one_room_left 2); [compute_done|lia]. Defined.

(** Extra X3.  For a count from 1 to 5 on an inventory with its ten floors,
    [bookRooms] shows the "Not enough rooms" alert exactly when no room at
    all is free; it then leaves the rooms as they are and does not call
    [setRooms]. *)
Theorem bookRooms_alert_iff (rooms : Inventory) (num : Z) :
  ten_floors rooms → 1 ≤ num ≤ 5 →
  (Alert "Not enough rooms available to fulfill the booking."
     ∈ trace (bookRooms rooms num)
   ↔ totalAvailable rooms = 0%nat)
  ∧ (totalAvailable rooms = 0%nat →
     bookRooms rooms num
     = mkRun [CallFindBestAllocation num;
              Alert "Not enough rooms available to fulfill the booking."]
             rooms Returned).
Proof.
  intros Hten Hnum.
  destruct (findBestAllocation_length rooms num Hten) as (sel & Hsel & Hlen); [lia|].
  unfold bookRooms.
  assert ((num <? 1) || (num >? 5) = false) as ->
    by (apply orb_false_iff; rewrite Z.ltb_ge, Z.gtb_ltb, Z.ltb_ge; lia).
  rewrite Hsel. case_decide as Hempty.
  - assert (totalAvailable rooms = 0%nat) as Hzero by lia.
    split; [|done]. simpl. split; [done|]. intros _. apply elem_of_cons. right.
    apply list_elem_of_here.
  - split; [|lia]. split; [|lia].
    unfold commitAllocation.
    destruct (forEachBook sel rooms) as [rooms' []]; simpl.
    + intros [[=]|[[=]|[]%elem_of_nil]%elem_of_cons]%elem_of_cons.
    + intros [[=]|[]%elem_of_nil]%elem_of_cons.
Qed.

Lemma bookRooms_alert_iff_witness :
  (Alert "Not enough rooms available to fulfill the booking."
     ∈ trace (bookRooms fully_booked 3)
   ↔ totalAvailable fully_booked = 0%nat)
  ∧ (totalAvailable fully_booked = 0%nat →
     bookRooms fully_booked 3
     = mkRun [CallFindBestAllocation 3;
              Alert "Not enough rooms available to fulfill the booking."]
             fully_booked Returned).
Proof. apply (bookRooms_alert_iff fully_booked 3); [compute_done|lia]. Defined.

(** Extra X4.  Two bookings in a row never take the same room: on a
    well-formed inventory the selection of the second request shares no
    reference with the selection the first one booked. *)
Theorem successive_bookings_disjoint (rooms : Inventory) (num1 num2 : Z)
    (sel1 sel2 : list RoomRef) :
  wf_inventory rooms → 1 ≤ num1 ≤ 5 → 1 ≤ num2 ≤ 5 →
  findBestAllocation rooms num1 = Some sel1 →
  findBestAllocation (store (bookRooms rooms num1)) num2 = Some sel2 →
  Forall (λ ref, ref ∉ sel2) sel1.
Proof.
  intros Hwf Hnum1 Hnum2 Hsel1 Hsel2. apply Forall_forall. intros ref Hin1 Hin2.
  destruct (bookRooms_wf rooms num1 Hwf Hnum1)
    as (sel & Hsel & _ & _ & Hsub & _ & Hdom & Hlook).
  assert (sel = sel1) as -> by congruence.
  assert (wf_inventory (store (bookRooms rooms num1))) as Hwf'.
  { eapply wf_inventory_layout; [|exact Hwf].
    apply lookupRoom_layout; [done|]. intros r. by rewrite Hlook, bookedBy_number. }
  destruct (findBestAllocation_free _ num2 sel2 Hwf') as [_ Hsub2]; [lia|done|].
  apply Hsub2, freeRefs_elem in Hin2 as (_ & room & Hroom & Hfree).
  rewrite Hlook in Hroom. unfold bookedBy in Hroom.
  destruct (lookupRoom rooms ref) as [[n b]|]; simplify_eq/=.
  rewrite bool_decide_eq_true_2 in Hfree by done.
  by rewrite orb_true_r in Hfree.
Qed.

Lemma successive_bookings_disjoint_witness :
  Forall (λ ref, ref ∉ [mkRef 3 0]) [mkRef 2 2; mkRef 2 6; mkRef 1 4].
Proof.
  apply (successive_bookings_disjoint scattered 3 3).
  - compute_done.
  - lia.
  - lia.
  - by vm_compute.
  - by vm_compute.
Defined.

(** ** When findBestAllocation throws *)

Lemma sameFloor_None (sort : SortFn) (rooms : Inventory) (num : Z)
    (floors : list nat) :
  sameFloor sort rooms num floors = None
  ↔ ∃ pre f post,
      floors = pre ++ f :: post ∧ rooms !! f = None
      ∧ Forall (λ g, ∃ arr, rooms !! g = Some arr
                            ∧ Z.of_nat (length (available arr)) < num) pre.
Proof.
  induction floors as [|f floors IH]; simpl.
  { split; [done|]. intros (pre & f & post & Hsplit & _). by destruct pre. }
  destruct (rooms !! f) as [arr|] eqn:Hf; simpl.
  - destruct (Z.leb_spec num (Z.of_nat (length (available arr)))) as [Hle|Hgt].
    + split; [done|]. intros ([|g pre] & f' & post & Hsplit & Hnone & Hpre);
        simplify_eq/=.
      apply Forall_cons in Hpre as [(arr' & Hg & Hlt) _]. simplify_eq. lia.
    + rewrite IH. split.
      * intros (pre & f' & post & -> & Hnone & Hpre).
        exists (f :: pre), f', post. split_and!; [done..|].
        constructor; [by exists arr|done].
      * intros ([|g pre] & f' & post & Hsplit & Hnone & Hpre); simplify_eq/=.
        apply Forall_cons in Hpre as [_ Hpre]. by exists pre, f', post.
  - split; [|done]. intros _. by exists [], f, floors.
Qed.

(** Extra X5.  [findBestAllocation] throws a [TypeError] exactly when one of
    the floors 1..10 is missing from the inventory and no floor below the
    missing one has enough free rooms for the request; [bookRooms] then ends
    with that error, with no alert, no [setRooms] and no room changed. *)
Theorem findBestAllocation_throws_iff (rooms : Inventory) (num : Z) :
  (findBestAllocation rooms num = None
   ↔ ∃ f, f ∈ allFloors ∧ rooms !! f = None
       ∧ ∀ g, g ∈ allFloors → (g < f)%nat →
              ∃ arr, rooms !! g = Some arr
                     ∧ Z.of_nat (length (available arr)) < num)
  ∧ (findBestAllocation rooms num = None → 1 ≤ num ≤ 5 →
     bookRooms rooms num = mkRun [CallFindBestAllocation num] rooms ThrewTypeError).
Proof.
  split.
  - unfold findBestAllocation, findBestAllocationWith.
    destruct (sameFloor (@Js.sort) rooms num allFloors) as [[sel|]|] eqn:Hsame;
      cbn [mbind option_bind].
    + split; [done|]. intros (f & Hf & Hnone & Hbelow).
      assert (sameFloor (@Js.sort) rooms num allFloors = None) as Habs; [|congruence].
      apply sameFloor_None.
      apply list_elem_of_split in Hf as (pre & post & Hsplit).
      exists pre, f, post. split_and!; [done..|].
      apply Forall_forall. intros g Hg. apply Hbelow.
      * rewrite Hsplit. apply elem_of_app. by left.
      * by apply (allFloors_split pre post f).
    + pose proof (sameFloor_fallthrough_present _ _ _ _ Hsame) as Hpresent.
      destruct (sameFloor_cases (@Js.sort) rooms num allFloors Hpresent)
        as [(? & ? & ? & ? & _ & _ & _ & _ & Heq)|[Hall _]]; [congruence|].
      rewrite acrossFloors_take.
      * split; [done|]. intros (f & Hf & Hnone & _).
        eapply Forall_forall in Hpresent as [? ?]; [|exact Hf]. congruence.
      * by rewrite sort_Permutation.
      * apply Forall_inv in Hall. simpl. lia.
    + split; [|done]. intros _.
      apply sameFloor_None in Hsame as (pre & f & post & Hsplit & Hnone & Hpre).
      exists f. split_and!; [|done|].
      * rewrite Hsplit. apply elem_of_app. right. by left.
      * intros g Hg Hlt. eapply Forall_forall in Hpre; [exact Hpre|].
        rewrite Hsplit in Hg.
        apply elem_of_app in Hg as [?|[->|Hpost]%elem_of_cons]; [done|lia|].
        apply (allFloors_split pre post f Hsplit) in Hpost. lia.
  - intros Hnone Hnum. unfold bookRooms.
    assert ((num <? 1) || (num >? 5) = false) as ->
      by (apply orb_false_iff; rewrite Z.ltb_ge, Z.gtb_ltb, Z.ltb_ge; lia).
    by rewrite Hnone.
Qed.

(** ** generateRandomOccupancy *)

Lemma flags_ext (r1 r2 : Random) (m : nat) :
  (∀ n, r1 n = r2 n) → flags r1 m = flags r2 m.
Proof. intros Heq. unfold flags. apply list_fmap_ext. intros _ k _. by rewrite Heq. Qed.

Lemma flags_app (random : Random) (a b : nat) :
  flags random (a + b) = flags random a ++ flags (λ n, random (a + n)%nat) b.
Proof.
  unfold flags. rewrite seq_app, fmap_app. f_equal. simpl.
  replace (seq a b) with (Nat.add a <$> seq 0 b)
    by (rewrite fmap_add_seq; f_equal; lia).
  by rewrite <-list_fmap_compose.
Qed.

Lemma mapRandom_spec (arr : list Room) (random : Random) :
  number <$> (mapRandom arr random).1 = number <$> arr
  ∧ booked <$> (mapRandom arr random).1 = flags random (length arr)
  ∧ ∀ n, (mapRandom arr random).2 n = random (length arr + n)%nat.
Proof.
  revert random. induction arr as [|room arr IH]; intros random; [done|].
  simpl. destruct (IH (λ n, random (S n))) as (Hnum & Hflags & Hnext).
  destruct (mapRandom arr (λ n, random (S n))) as [rest' random'].
  simpl in *. split_and!.
  - csimpl. by f_equal.
  - csimpl. unfold flags in *. csimpl. f_equal.
    by rewrite Hflags, <-fmap_S_seq, <-list_fmap_compose.
  - done.
Qed.

Lemma layout_insert (rooms : Inventory) (f : nat) (arr arr' : list Room) :
  rooms !! f = Some arr → number <$> arr' = number <$> arr →
  layout (<[f := arr']> rooms) = layout rooms.
Proof.
  intros Hf Hnum. unfold layout. rewrite fmap_insert, Hnum.
  apply insert_id. by rewrite lookup_fmap, Hf.
Qed.

Lemma randomizeFloors_spec (fs : list nat) (rooms : Inventory) (random : Random) :
  NoDup fs → Forall (λ f, is_Some (rooms !! f)) fs →
  ∃ rooms',
    (randomizeFloors fs rooms random).1 = Some rooms'
    ∧ layout rooms' = layout rooms
    ∧ (∀ f, f ∉ fs → rooms' !! f = rooms !! f)
    ∧ booked <$> (fs ≫= (rooms' !!!.)) = flags random (length (fs ≫= (rooms !!!.)))
    ∧ ∀ n, (randomizeFloors fs rooms random).2 n
           = random (length (fs ≫= (rooms !!!.)) + n)%nat.
Proof.
  intros Hnodup Hpresent. revert rooms random Hpresent.
  induction Hnodup as [|f fs Hf _ IH]; intros rooms random Hpresent.
  { exists rooms. by split_and!. }
  apply Forall_cons in Hpresent as [[arr Harr] Hpresent].
  cbn [randomizeFloors]. rewrite Harr.
  destruct (mapRandom_spec arr random) as (Hnum & Hflags & Hnext).
  destruct (mapRandom arr random) as [arr' random1]. simpl in Hnum, Hflags, Hnext.
  set (rooms1 := <[f := arr']> rooms).
  assert (fs ≫= (rooms1 !!!.) = fs ≫= (rooms !!!.)) as Hsame.
  { apply Forall_bind_ext, Forall_forall. intros g Hg.
    apply lookup_total_insert_ne. by intros ->. }
  destruct (IH rooms1 random1) as (rooms' & Hrun & Hlay & Hout & Hfl & Hrnd).
  { eapply Forall_impl; [exact Hpresent|]. intros g [arr0 Hg]. unfold rooms1.
    destruct (decide (f = g)) as [->|]; [by rewrite lookup_insert_eq|].
    by rewrite lookup_insert_ne, Hg. }
  exists rooms'. rewrite Hsame in Hfl, Hrnd.
  assert (rooms' !!! f = arr') as Hf'.
  { apply lookup_total_correct. rewrite Hout by done. apply lookup_insert_eq. }
  assert (length arr' = length arr) as Hlen.
  { by rewrite <-(length_fmap number arr'), Hnum, length_fmap. }
  split_and!.
  - done.
  - rewrite Hlay. by apply (layout_insert rooms f arr arr').
  - intros g [Hne Hg]%not_elem_of_cons. rewrite Hout by done.
    by apply lookup_insert_ne.
  - rewrite !bind_cons, fmap_app, Hf', Hflags, Hfl, length_app.
    rewrite (lookup_total_correct _ _ _ Harr), flags_app. f_equal.
    by apply flags_ext.
  - intros n. rewrite Hrnd, Hnext, bind_cons, length_app.
    rewrite (lookup_total_correct _ _ _ Harr). f_equal. lia.
Qed.

Lemma randomizeFloors_None (fs : list nat) (rooms : Inventory) (random : Random) :
  (randomizeFloors fs rooms random).1 = None ↔ ∃ f, f ∈ fs ∧ rooms !! f = None.
Proof.
  revert rooms random. induction fs as [|f fs IH]; intros rooms random; simpl.
  { split; [done|]. by intros (f & []%elem_of_nil & _). }
  destruct (rooms !! f) as [arr|] eqn:Hf.
  - destruct (mapRandom arr random) as [arr' random1]. rewrite IH. split.
    + intros (g & Hg & Hnone). exists g. split; [by right|].
      destruct (decide (f = g)) as [->|Hne]; [by rewrite lookup_insert_eq in Hnone|].
      by rewrite lookup_insert_ne in Hnone.
    + intros (g & [->|Hg]%elem_of_cons & Hnone); [congruence|].
      exists g. split; [done|].
      destruct (decide (f = g)) as [->|Hne]; [congruence|].
      by rewrite lookup_insert_ne.
  - split; [|done]. intros _. exists f. split; [by left|done].
Qed.

Lemma layout_dom (rooms : Inventory) : dom (layout rooms) = dom rooms.
Proof. unfold layout. apply dom_fmap_L. Qed.

Lemma visited_numbers (rooms : Inventory) :
  number <$> visited rooms = allFloors ≫= (layout rooms !!!.).
Proof.
  unfold visited. rewrite fmap_bind_list.
  apply Forall_bind_ext, Forall_forall. intros f _.
  unfold layout. rewrite !lookup_total_alt, lookup_fmap.
  by destruct (rooms !! f).
Qed.

Lemma visited_length (rooms rooms' : Inventory) :
  layout rooms' = layout rooms → length (visited rooms') = length (visited rooms).
Proof.
  intros Hlay.
  by rewrite <-(length_fmap number (visited rooms')), <-(length_fmap number (visited rooms)),
    !visited_numbers, Hlay.
Qed.

Lemma rooms_eq (arr1 arr2 : list Room) :
  number <$> arr1 = number <$> arr2 → booked <$> arr1 = booked <$> arr2 →
  arr1 = arr2.
Proof.
  revert arr2. induction arr1 as [|[n1 b1] arr1 IH]; intros [|[n2 b2] arr2];
    csimpl; intros Hn Hb; simplify_eq/=; [done|].
  f_equal. by apply IH.
Qed.

(** An inventory with the ten floors is its layout together with the booked
    flags of its rooms in visiting order. *)
Lemma inventory_eq (rooms1 rooms2 : Inventory) :
  ten_floors rooms1 → layout rooms1 = layout rooms2 →
  booked <$> visited rooms1 = booked <$> visited rooms2 →
  rooms1 = rooms2.
Proof.
  intros Hten Hlay Hflags.
  assert (∀ f, number <$> rooms1 !!! f = number <$> rooms2 !!! f) as Hnum.
  { intros f. apply (f_equal (.!!! f)) in Hlay. unfold layout in Hlay.
    rewrite !lookup_total_alt, !lookup_fmap in Hlay.
    rewrite !lookup_total_alt. by destruct (rooms1 !! f), (rooms2 !! f). }
  assert (∀ f, f ∈ allFloors → rooms1 !!! f = rooms2 !!! f) as Harr.
  { unfold visited in Hflags. revert Hflags. generalize allFloors. intros fs.
    induction fs as [|g fs IH]; intros Hfl f Hf; [by apply elem_of_nil in Hf|].
    rewrite !bind_cons, !fmap_app in Hfl.
    apply app_inj_1 in Hfl as [Hg Hrest].
    - apply elem_of_cons in Hf as [->|Hf]; [|by apply IH].
      by apply rooms_eq.
    - rewrite !length_fmap.
      by rewrite <-(length_fmap number (rooms1 !!! g)), Hnum, length_fmap. }
  assert (dom rooms2 = dom rooms1) as Hdom.
  { by rewrite <-(layout_dom rooms2), <-Hlay, layout_dom. }
  apply map_eq. intros f.
  destruct (decide (f ∈ allFloors)) as [Hf|Hf].
  - assert (is_Some (rooms1 !! f)) as [arr1 H1] by (by apply ten_floors_present).
    assert (is_Some (rooms2 !! f)) as [arr2 H2].
    { apply elem_of_dom. rewrite Hdom. apply elem_of_dom. by rewrite H1. }
    specialize (Harr f Hf).
    rewrite (lookup_total_correct _ _ _ H1), (lookup_total_correct _ _ _ H2) in Harr.
    congruence.
  - assert (f ∉ dom rooms1) as Hout.
    { unfold ten_floors in Hten. rewrite Hten. by rewrite elem_of_list_to_set. }
    assert (rooms1 !! f = None) as -> by (by apply not_elem_of_dom).
    symmetry. apply not_elem_of_dom. by rewrite Hdom.
Qed.

Lemma generateRandomOccupancy_run (rooms : Inventory) (random : Random) :
  Forall (λ f, is_Some (rooms !! f)) allFloors →
  ∃ rooms',
    (generateRandomOccupancy rooms random).1
    = mkRun [SetRooms rooms'] rooms' Returned
    ∧ layout rooms' = layout rooms
    ∧ (∀ f, f ∉ allFloors → rooms' !! f = rooms !! f)
    ∧ booked <$> visited rooms' = flags random (length (visited rooms))
    ∧ ∀ n, (generateRandomOccupancy rooms random).2 n
           = random (length (visited rooms) + n)%nat.
Proof.
  intros Hpresent. unfold generateRandomOccupancy.
  destruct (randomizeFloors_spec allFloors rooms random (NoDup_seq _ _) Hpresent)
    as (rooms' & Hrun & Hrest).
  destruct (randomizeFloors allFloors rooms random) as [[updated|] random'];
    simplify_eq/=.
  by exists rooms'.
Qed.

(** Extra X6.  When the floors 1..10 exist, [generateRandomOccupancy] calls
    [setRooms] with an inventory of the same floors and room numbers in which
    the k-th room, counting through the floors 1 to 10 in array order, is
    booked exactly when the k-th draw of [Math.random()] is below 0.3; it
    uses one draw per room, and floors outside 1..10 are left as they are. *)
Theorem generateRandomOccupancy_spec (rooms : Inventory) (random : Random) :
  (∀ f, f ∈ allFloors → is_Some (rooms !! f)) →
  (generateRandomOccupancy rooms random).1
  = mkRun [SetRooms (store (generateRandomOccupancy rooms random).1)]
          (store (generateRandomOccupancy rooms random).1) Returned
  ∧ layout (store (generateRandomOccupancy rooms random).1) = layout rooms
  ∧ booked <$> visited (store (generateRandomOccupancy rooms random).1)
    = flags random (length (visited rooms))
  ∧ (∀ f, f ∉ allFloors →
          store (generateRandomOccupancy rooms random).1 !! f = rooms !! f)
  ∧ ∀ n, (generateRandomOccupancy rooms random).2 n
         = random (length (visited rooms) + n)%nat.
Proof.
  intros Hpresent%Forall_forall.
  destruct (generateRandomOccupancy_run rooms random Hpresent)
    as (rooms' & Hrun & Hlay & Hout & Hflags & Hnext).
  rewrite Hrun. simpl. by split_and!.
Qed.

(** Extra X7.  [generateRandomOccupancy] throws a [TypeError] exactly when
    one of the floors 1..10 is missing; [setRooms] is then not called and the
    inventory held is unchanged. *)
Theorem generateRandomOccupancy_throws_iff (rooms : Inventory) (random : Random) :
  ((generateRandomOccupancy rooms random).1 = mkRun [] rooms ThrewTypeError
   ↔ ∃ f, f ∈ allFloors ∧ rooms !! f = None)
  ∧ (completion (generateRandomOccupancy rooms random).1 = ThrewTypeError
     ↔ ∃ f, f ∈ allFloors ∧ rooms !! f = None).
Proof.
  rewrite <-(randomizeFloors_None allFloors rooms random).
  unfold generateRandomOccupancy.
  destruct (randomizeFloors allFloors rooms random) as [[updated|] random'];
    simpl; split; split; done.
Qed.

(** Extra X8.  [generateRandomOccupancy] forgets the occupancy it starts
    from: two inventories with the same ten floors and room numbers give the
    same result on the same draws, whatever was booked in either. *)
Theorem generateRandomOccupancy_forgets (rooms1 rooms2 : Inventory)
    (random : Random) :
  ten_floors rooms1 → layout rooms1 = layout rooms2 →
  (generateRandomOccupancy rooms1 random).1
  = (generateRandomOccupancy rooms2 random).1.
Proof.
  intros Hten Hlay.
  assert (ten_floors rooms2) as Hten2.
  { unfold ten_floors in *. by rewrite <-(layout_dom rooms2), <-Hlay, layout_dom. }
  destruct (generateRandomOccupancy_run rooms1 random)
    as (r1 & -> & Hlay1 & Hout1 & Hfl1 & _).
  { apply Forall_forall. intros f Hf. by apply ten_floors_present. }
  destruct (generateRandomOccupancy_run rooms2 random)
    as (r2 & -> & Hlay2 & Hout2 & Hfl2 & _).
  { apply Forall_forall. intros f Hf. by apply ten_floors_present. }
  assert (r1 = r2) as ->; [|done].
  apply inventory_eq.
  - unfold ten_floors in *. by rewrite <-(layout_dom r1), Hlay1, layout_dom.
  - congruence.
  - rewrite Hfl1, Hfl2. f_equal. by apply visited_length.
Qed.

Lemma generateRandomOccupancy_forgets_witness :
  (generateRandomOccupancy scattered alternating).1
  = (generateRandomOccupancy fully_booked alternating).1.
Proof. apply generateRandomOccupancy_forgets; compute_done. Defined.

Lemma flags_encode (bs : list bool) :
  flags (λ n, if default false (bs !! n) then 0%Q else Qmake 1 2) (length bs) = bs.
Proof.
  unfold flags. apply list_eq. intros i. rewrite list_lookup_fmap.
  destruct (decide (i < length bs)%nat) as [Hlt|Hge].
  - rewrite lookup_seq_lt by done. simpl.
    destruct (lookup_lt_is_Some_2 bs i Hlt) as [b Hb]. rewrite Hb. simpl.
    by destruct b.
  - rewrite lookup_seq_ge by lia. symmetry. apply lookup_ge_None. lia.
Qed.

(** Extra X9.  Every occupancy can come out of [generateRandomOccupancy]:
    for an inventory with the ten floors and any inventory of the same
    floors and room numbers there are draws in [0, 1) on which the handler
    produces exactly that inventory. *)
Theorem generateRandomOccupancy_reaches (rooms target : Inventory) :
  ten_floors rooms → layout target = layout rooms →
  ∃ random : Random,
    (∀ n, (0 <= random n)%Q ∧ (random n < 1)%Q)
    ∧ store (generateRandomOccupancy rooms random).1 = target.
Proof.
  intros Hten Hlay.
  set (random := λ n : nat,
         if default false ((booked <$> visited target) !! n) then 0%Q else Qmake 1 2).
  exists random. split.
  { intros n. unfold random. by destruct (default false _). }
  destruct (generateRandomOccupancy_run rooms random)
    as (r1 & -> & Hlay1 & _ & Hfl1 & _).
  { apply Forall_forall. intros f Hf. by apply ten_floors_present. }
  simpl. apply inventory_eq.
  - unfold ten_floors in *. by rewrite <-(layout_dom r1), Hlay1, layout_dom.
  - congruence.
  - rewrite Hfl1, <-(visited_length rooms target), <-(length_fmap booked) by done.
    apply flags_encode.
Qed.

Lemma generateRandomOccupancy_reaches_witness :
  ∃ random : Random,
    (∀ n, (0 <= random n)%Q ∧ (random n < 1)%Q)
    ∧ store (generateRandomOccupancy initializeRooms random).1 = one_room_left.
Proof. apply generateRandomOccupancy_reaches; compute_done. Defined.

Lemma generateRandomOccupancy_spec_witness :
  (generateRandomOccupancy scattered alternating).1
  = mkRun [SetRooms (store (generateRandomOccupancy scattered alternating).1)]
          (store (generateRandomOccupancy scattered alternating).1) Returned
  ∧ layout (store (generateRandomOccupancy scattered alternating).1) = layout scattered
  ∧ booked <$> visited (store (generateRandomOccupancy scattered alternating).1)
    = flags alternating (length (visited scattered))
  ∧ (∀ f, f ∉ allFloors →
          store (generateRandomOccupancy scattered alternating).1 !! f = scattered !! f)
  ∧ ∀ n, (generateRandomOccupancy scattered alternating).2 n
         = alternating (length (visited scattered) + n)%nat.
Proof.
  apply (generateRandomOccupancy_spec scattered).
  apply Forall_forall. compute_done.
Defined.

(** ** Sessions *)

Lemma allRooms_numbers (rooms : Inventory) :
  number <$> allRooms rooms ≡ₚ map_to_list (layout rooms) ≫= snd.
Proof.
  unfold allRooms, layout. rewrite map_to_list_fmap, fmap_bind_list, list_fmap_bind.
  done.
Qed.

Lemma click_keeps_layout (a : Action) (rooms : Inventory) (random : Random) :
  layout rooms = layout initializeRooms →
  completion (click a rooms random).1 = Returned
  ∧ layout (store (click a rooms random).1) = layout initializeRooms.
Proof.
  intros Hlay.
  assert (wf_inventory rooms) as Hwf.
  { apply (wf_inventory_layout initializeRooms); [done|compute_done]. }
  destruct a as [num| |]; simpl.
  - split; [|by rewrite bookRooms_layout].
    destruct (decide (1 ≤ num ≤ 5)) as [Hnum|Hnum].
    + by destruct (bookRooms_wf rooms num Hwf Hnum) as (_ & _ & _ & _ & _ & ? & _).
    + unfold bookRooms.
      assert ((num <? 1) || (num >? 5) = true) as ->; [|done].
      apply orb_true_iff. rewrite Z.ltb_lt, Z.gtb_gt. lia.
  - destruct (generateRandomOccupancy_run rooms random) as (rooms' & -> & Hl & _).
    { apply Forall_forall. intros f Hf. by apply ten_floors_present; [apply Hwf|]. }
    simpl. split; [done|congruence].
  - done.
Qed.

(** Extra X10.  In any session of clicks on the three buttons, started from
    the initial inventory or from any inventory of the same layout, with any
    counts typed in and any random draws, no handler ever throws, and after
    every click the inventory still has the initial floors and room numbers:
    it is well-formed, has 97 rooms and no room number twice. *)
Theorem session_keeps_layout (actions : list Action) (rooms : Inventory)
    (random : Random) :
  layout rooms = layout initializeRooms →
  Forall (λ run,
            completion run = Returned
            ∧ layout (store run) = layout initializeRooms
            ∧ wf_inventory (store run)
            ∧ length (allRooms (store run)) = 97%nat
            ∧ NoDup (number <$> allRooms (store run)))
         (session actions rooms random).
Proof.
  revert rooms random. induction actions as [|a actions IH]; intros rooms random Hlay.
  { constructor. }
  cbn [session].
  destruct (click_keeps_layout a rooms random Hlay) as [Hret Hlay'].
  destruct (click a rooms random) as [run random']. simpl in *.
  constructor; [|by apply IH].
  assert (number <$> allRooms (store run) ≡ₚ number <$> allRooms initializeRooms)
    as Hperm by (by rewrite !allRooms_numbers, Hlay').
  split_and!; [done..| | |].
  - apply (wf_inventory_layout initializeRooms); [done|compute_done].
  - rewrite <-(length_fmap number), Hperm, length_fmap. by vm_compute.
  - rewrite Hperm. compute_done.
Qed.

Lemma session_keeps_layout_witness :
  Forall (λ run,
            completion run = Returned
            ∧ layout (store run) = layout initializeRooms
            ∧ wf_inventory (store run)
            ∧ length (allRooms (store run)) = 97%nat
            ∧ NoDup (number <$> allRooms (store run)))
         (session [Book 4; Randomize; Book 0; Book 5; Reset; Book 2]
                  initializeRooms (λ n, Qmake (Z.of_nat (n mod 4)) 4)).
Proof. by apply session_keeps_layout. Defined.

(** ** The quality of a selection *)

Lemma StronglySorted_lookup {A} (R : relation A) (l : list A) (i j : nat) (a b : A) :
  StronglySorted R l → l !! i = Some a → l !! j = Some b → (i < j)%nat → R a b.
Proof.
  intros Hs. revert i j. induction Hs as [|x l _ IH Hx]; intros i j Hi Hj Hij; [done|].
  destruct j as [|j]; [lia|]. destruct i as [|i]; simplify_eq/=.
  - eapply Forall_forall in Hx; [exact Hx|]. by eapply list_elem_of_lookup_2.
  - eapply IH; eauto. lia.
Qed.

(** On an ascending floor the references to the free rooms come in
    ascending position. *)
Lemma AvailableRefs_sorted (rooms : Inventory) (f : nat) (arr : list Room) :
  rooms !! f = Some arr → ascending arr →
  StronglySorted (λ a b, index a < index b) (AvailableRefs rooms f).
Proof.
  intros Hf Hasc. unfold AvailableRefs.
  rewrite (lookup_total_correct _ _ _ Hf), merge_sort_unbookedAt by done.
  eapply StronglySorted_fmap; [|apply unbookedAt_positions_sorted].
  intros p q Hpq. simpl in *. lia.
Qed.

(** Of the rooms of one floor a selection holds a prefix of the floor's
    free rooms. *)
Lemma selection_floor_prefix (rooms : Inventory) (f : nat) (floors : list nat)
    (n : nat) :
  NoDup floors →
  ∃ m, ∀ ref, floor ref = f →
    (ref ∈ take n (floors ≫= AvailableRefs rooms)
     ↔ ref ∈ take m (AvailableRefs rooms f)).
Proof.
  intros Hnodup. revert n. induction Hnodup as [|g fs Hg _ IH]; intros n.
  { exists 0%nat. intros ref _. simpl. rewrite take_nil.
    split; intros []%elem_of_nil. }
  rewrite bind_cons.
  destruct (decide (g = f)) as [->|Hne].
  - exists n. intros ref Href. rewrite take_app, elem_of_app. split; [|by left].
    intros [?|Hin]; [done|].
    apply elem_of_take in Hin as (i & Hin%list_elem_of_lookup_2 & _).
    apply list_elem_of_bind in Hin as (g & [Hfloor _]%AvailableRefs_elem & Hgin).
    congruence.
  - destruct (IH (n - length (AvailableRefs rooms g))%nat) as [m Hm].
    exists m. intros ref Href. rewrite take_app, elem_of_app, Hm by done.
    split; [|by right]. intros [Hin|?]; [|done].
    apply elem_of_take in Hin as (i & Hin%list_elem_of_lookup_2 & _).
    apply AvailableRefs_elem in Hin as [Hfloor _]. congruence.
Qed.

(** The result on a well-formed inventory, with the floors it draws from. *)
Lemma findBestAllocation_floors (rooms : Inventory) (num : Z) (sel : list RoomRef) :
  wf_inventory rooms → 1 ≤ num → findBestAllocation rooms num = Some sel →
  ∃ floors, NoDup floors ∧ sel = take (Z.to_nat num) (floors ≫= AvailableRefs rooms).
Proof.
  intros Hwf Hnum Hsel.
  destruct (findBestAllocation_wf rooms num Hwf Hnum) as (floors & Hnodup & Heq).
  exists floors. split; [done|]. congruence.
Qed.

(** Extra X11.  Nearest to the stairs first: on a well-formed inventory, if
    a room is selected and a free room of the same floor is not, the
    selected room has the smaller room number. *)
Theorem selection_nearest_first (rooms : Inventory) (num : Z)
    (sel : list RoomRef) (ref ref' : RoomRef) (room room' : Room) :
  wf_inventory rooms → 1 ≤ num ≤ 5 →
  findBestAllocation rooms num = Some sel →
  ref ∈ sel → ref' ∉ sel → floor ref' = floor ref →
  lookupRoom rooms ref = Some room →
  lookupRoom rooms ref' = Some room' → booked room' = false →
  number room < number room'.
Proof.
  intros Hwf [Hnum _] Hsel Hin Hout Hfloor Hroom Hroom' Hfree'.
  destruct (findBestAllocation_floors rooms num sel Hwf Hnum Hsel)
    as (floors & Hnodup & ->).
  destruct (selection_floor_prefix rooms (floor ref) floors (Z.to_nat num) Hnodup)
    as [m Hm].
  apply Hm in Hin; [|done]. rewrite Hm in Hout by done.
  apply elem_of_take in Hin as (i & Hi & Him).
  assert (ref' ∈ AvailableRefs rooms (floor ref)) as Hin'.
  { apply AvailableRefs_elem_iff. split; [done|]. by exists room'. }
  apply list_elem_of_lookup in Hin' as [j Hj].
  assert (i < j)%nat as Hij.
  { destruct (decide (j < m)%nat) as [Hjm|?]; [|lia].
    destruct Hout. apply elem_of_take. by exists j. }
  unfold lookupRoom in Hroom, Hroom'. rewrite Hfloor in Hroom'.
  destruct (rooms !! floor ref) as [arr|] eqn:Harr; simplify_eq/=.
  assert (ascending arr) as Hasc by (by eapply wf_inventory_ascending).
  pose proof (StronglySorted_lookup _ _ i j ref ref'
                (AvailableRefs_sorted rooms (floor ref) arr Harr Hasc) Hi Hj Hij) as Hlt.
  unfold Js.at_index in Hroom, Hroom'.
  destruct (Z.ltb_spec (index ref) 0); [done|].
  destruct (Z.ltb_spec (index ref') 0); [done|].
  simpl in Hlt.
  eapply (ascending_lookup_lt arr); [done|exact Hroom|exact Hroom'|lia].
Qed.

Lemma selection_nearest_first_witness : 109 < 110.
Proof.
  apply (selection_nearest_first floor1_nearly_full 1 [mkRef 1 8]
           (mkRef 1 8) (mkRef 1 9) (mkRoom 109 false) (mkRoom 110 false)).
  - compute_done.
  - lia.
  - by vm_compute.
  - apply list_elem_of_here.
  - intros [=]%list_elem_of_singleton.
  - reflexivity.
  - by vm_compute.
  - by vm_compute.
  - reflexivity.
Defined.

(** Extra X12.  Same floor whenever possible, and only then: on a
    well-formed inventory with enough free rooms for the request, the
    selected rooms are all on one floor exactly when some floor alone has
    enough free rooms. *)
Theorem same_floor_iff (rooms : Inventory) (num : Z) (sel : list RoomRef) :
  wf_inventory rooms → 1 ≤ num ≤ 5 →
  num ≤ Z.of_nat (totalAvailable rooms) →
  findBestAllocation rooms num = Some sel →
  ((∃ f, ∀ ref, ref ∈ sel → floor ref = f)
   ↔ ∃ f, f ∈ allFloors ∧ num ≤ Z.of_nat (AvailableCount rooms f)).
Proof.
  intros Hwf Hnum Htotal Hsel.
  destruct (findBestAllocation_cases rooms num (proj1 Hwf))
    as [(pre & f & post & arr & Hsplit & _ & Hf & Hle & Heq)|[Hall _]].
  - assert (f ∈ allFloors) as Hin.
    { rewrite Hsplit. apply elem_of_app. right. by left. }
    split; [by exists f|]. intros _. exists f.
    assert (Some sel = Some (refOf f arr <$> Js.slice0 (Js.sort byNumber (available arr)) num))
      as [= ->] by (by rewrite <-Hsel).
    by intros ref (room & -> & _)%list_elem_of_fmap.
  - split.
    + intros (f & Hsame). exfalso.
      destruct (findBestAllocation_length rooms num (proj1 Hwf)) as (sel' & Hsel' & Hlen);
        [lia|].
      assert (sel' = sel) as -> by congruence.
      destruct (findBestAllocation_free rooms num sel Hwf) as [Hnodup Hsub]; [lia|done|].
      assert (sel ⊆ AvailableRefs rooms f) as Hsubf.
      { intros ref Href. apply AvailableRefs_elem_iff. split; [by apply Hsame|].
        by apply Hsub, freeRefs_elem in Href as [_ ?]. }
      assert (f ∈ allFloors) as Hf.
      { destruct sel as [|ref0 sel]; [simpl in Hlen; lia|].
        rewrite <-(Hsame ref0) by apply list_elem_of_here.
        pose proof (Hsub ref0 (list_elem_of_here ref0 sel)) as Hfree.
        by apply freeRefs_elem in Hfree as [? _]. }
      eapply Forall_forall in Hall; [|exact Hf]. simpl in Hall.
      pose proof (submseteq_length _ _ (NoDup_submseteq _ _ Hnodup Hsubf)) as Hle.
      rewrite AvailableRefs_length in Hle. lia.
    + intros (f & Hf & Hle). eapply Forall_forall in Hall; [|exact Hf].
      simpl in Hall. lia.
Qed.

Lemma same_floor_iff_witness :
  (∃ f, ∀ ref, ref ∈ [mkRef 2 2; mkRef 2 6; mkRef 1 4] → floor ref = f)
  ↔ ∃ f, f ∈ allFloors ∧ 3 ≤ Z.of_nat (AvailableCount scattered f).
Proof.
  apply (same_floor_iff scattered 3); [compute_done|lia|compute_done|by vm_compute].
Defined.

Section greedy.
Context (w : nat → nat).

Lemma take_succ_bound (c : nat) (r : list nat) (m : nat) :
  Forall (λ b, (w b ≤ c)%nat) r →
  (sum_list_with w (take (S m) r) ≤ c + sum_list_with w (take m r))%nat.
Proof.
  intros Hr. revert m. induction Hr as [|b r Hb _ IH]; intros m; [simpl; lia|].
  destruct m as [|m]; [simpl; lia|].
  specialize (IH m). simpl in *. lia.
Qed.

(** Of all the ways to pick [k] floors, the first [k] of a list sorted by
    descending weight weigh the most. *)
Lemma greedy_prefix_max (r S : list nat) :
  StronglySorted (λ a b, (w b ≤ w a)%nat) r → NoDup S → S ⊆ r →
  (sum_list_with w S ≤ sum_list_with w (take (length S) r))%nat.
Proof.
  intros Hr. revert S. induction Hr as [|a r _ IH Ha]; intros S Hnodup Hsub.
  { destruct S as [|x S]; [done|].
    pose proof (Hsub x (list_elem_of_here x S)) as Hx.
    by apply elem_of_nil in Hx. }
  destruct (decide (a ∈ S)) as [Hin|Hout].
  - apply elem_of_Permutation in Hin as [S' HS].
    rewrite HS in Hnodup, Hsub |- *. apply NoDup_cons in Hnodup as [Ha' Hnodup].
    simpl. specialize (IH S' Hnodup). apply Nat.add_le_mono_l, IH.
    intros x Hx. assert (x ∈ a :: r) as [->|?]%elem_of_cons; [|done..].
    apply Hsub. by right.
  - assert (S ⊆ r) as Hsub'.
    { intros x Hx. assert (x ∈ a :: r) as [->|?]%elem_of_cons; [|done..].
      by apply Hsub. }
    specialize (IH S Hnodup Hsub').
    destruct S as [|x S]; [simpl; lia|].
    cbn [length take sum_list_with] in *.
    pose proof (take_succ_bound (w a) r (length S) Ha). simpl in *. lia.
Qed.
End greedy.

(** Extra X13.  The cross-floor choice is frugal with floors: on a
    well-formed inventory the selection never touches more floors than any
    set of floors whose free rooms together cover the request. *)
Theorem selection_fewest_floors (rooms : Inventory) (num : Z)
    (sel : list RoomRef) (S : list nat) :
  wf_inventory rooms → 1 ≤ num ≤ 5 →
  findBestAllocation rooms num = Some sel →
  NoDup S → S ⊆ allFloors →
  num ≤ Z.of_nat (sum_list_with (AvailableCount rooms) S) →
  (length (floorsOf sel) ≤ length S)%nat.
Proof.
  intros Hwf Hnum Hsel Hnodup Hsub Hcover.
  assert (∀ fs : list nat,
            (∀ ref, ref ∈ sel → floor ref ∈ fs) →
            (length (floorsOf sel) ≤ length fs)%nat) as Hbound.
  { intros fs Hfs. apply submseteq_length, NoDup_submseteq.
    - apply NoDup_remove_dups.
    - intros f (ref & -> & Href)%elem_of_remove_dups%list_elem_of_fmap.
      by apply Hfs. }
  destruct (findBestAllocation_cases rooms num (proj1 Hwf))
    as [(pre & f & post & arr & Hsplit & _ & Hf & Hle & Heq)|[Hall Heq]];
    (assert (Some sel = _) as Heq' by (rewrite <-Hsel; exact Heq));
    apply (inj Some) in Heq' as ->; clear Heq Hsel.
  - destruct S as [|g S]; [simpl in Hcover; lia|].
    etransitivity; [apply (Hbound [f])|simpl; lia].
    intros ref (room & -> & _)%list_elem_of_fmap. apply list_elem_of_here.
  - set (r := Js.sort (byAvailability rooms) allFloors) in *.
    assert (is_ranking rooms r) as [Hperm Hsorted].
    { apply (sorted_floors_ranking (@Js.sort)), Js_sort_contract. }
    pose proof (greedy_prefix_max (AvailableCount rooms) r S) as Hmax.
    assert ((Z.to_nat num ≤ length (take (length S) r ≫= floorRefs rooms))%nat) as Hlen.
    { rewrite bind_length_sum.
      replace (sum_list_with (λ x, length (floorRefs rooms x)) (take (length S) r))
        with (sum_list_with (AvailableCount rooms) (take (length S) r)).
      - etransitivity; [|apply Hmax]; [lia| |done|].
        + eapply StronglySorted_impl; [|exact Hsorted].
          unfold rankedBefore. intros; lia.
        + intros f Hf. rewrite Hperm. by apply Hsub.
      - generalize (take (length S) r). intros l.
        induction l as [|f l IH]; [done|].
        simpl. f_equal; [symmetry; apply floorRefs_length|apply IH]. }
    etransitivity; [apply (Hbound (take (length S) r))|].
    + intros ref Href. rewrite <-(take_drop (length S) r), bind_app in Href.
      rewrite take_app_le in Href by done.
      apply elem_of_take in Href as (i & Href%list_elem_of_lookup_2 & _).
      apply list_elem_of_bind in Href as (f & Href & Hf).
      unfold floorRefs in Href.
      by apply list_elem_of_fmap in Href as (room & -> & _).
    + rewrite length_take. lia.
Qed.

Lemma selection_fewest_floors_witness :
  (length (floorsOf [mkRef 2 2; mkRef 2 6; mkRef 1 4]) ≤ length [2; 3]%nat)%nat.
Proof.
  apply (selection_fewest_floors scattered 3).
  - compute_done.
  - lia.
  - by vm_compute.
  - compute_done.
  - compute_done.
  - compute_done.
Defined.

(** ** The commit step as an operation on inventories *)

(** Two inventories with the same floors in which every reference denotes
    the same room are equal. *)
Lemma lookupRoom_ext (rooms1 rooms2 : Inventory) :
  dom rooms1 = dom rooms2 →
  (∀ ref, lookupRoom rooms1 ref = lookupRoom rooms2 ref) →
  rooms1 = rooms2.
Proof.
  intros Hdom Hlook. apply map_eq. intros f.
  destruct (rooms1 !! f) as [arr1|] eqn:H1.
  - assert (is_Some (rooms2 !! f)) as [arr2 H2].
    { apply elem_of_dom. rewrite <-Hdom. apply elem_of_dom. by rewrite H1. }
    rewrite H2. f_equal. apply list_eq. intros i.
    specialize (Hlook (mkRef f (Z.of_nat i))).
    by rewrite !lookupRoom_position, H1, H2 in Hlook.
  - symmetry. apply not_elem_of_dom. rewrite <-Hdom. by apply not_elem_of_dom.
Qed.

(** Extra X14.  The commit step depends only on which rooms a selection
    names: two selections naming the same existing rooms, in any order and
    with any repetitions, are committed to the same inventory; and committing
    a selection a second time changes nothing. *)
Theorem commit_order_irrelevant (rooms : Inventory) (sel sel' : list RoomRef) :
  Forall (λ ref, is_Some (lookupRoom rooms ref)) sel →
  (∀ ref, ref ∈ sel ↔ ref ∈ sel') →
  commitAllocation sel rooms = commitAllocation sel' rooms
  ∧ forEachBook sel (forEachBook sel rooms).1 = forEachBook sel rooms.
Proof.
  intros Hall Hsame.
  assert (Forall (λ ref, is_Some (lookupRoom rooms ref)) sel') as Hall'.
  { apply Forall_forall. intros ref Href%Hsame.
    by eapply Forall_forall in Hall. }
  destruct (forEachBook_resolved sel rooms Hall) as (r1 & Hrun1 & Hdom1 & Hlook1).
  destruct (forEachBook_resolved sel' rooms Hall') as (r2 & Hrun2 & Hdom2 & Hlook2).
  split.
  - unfold commitAllocation. rewrite Hrun1, Hrun2.
    assert (r1 = r2) as ->; [|done].
    apply lookupRoom_ext; [congruence|]. intros ref. rewrite Hlook1, Hlook2.
    unfold bookedBy. by rewrite (bool_decide_ext _ _ (Hsame ref)).
  - rewrite Hrun1. simpl.
    destruct (forEachBook_resolved sel r1) as (r3 & Hrun3 & Hdom3 & Hlook3).
    { eapply Forall_impl; [exact Hall|]. intros ref Hsome. simpl in Hsome.
      rewrite Hlook1. by apply fmap_is_Some. }
    rewrite Hrun3. f_equal.
    apply lookupRoom_ext; [congruence|]. intros ref. rewrite Hlook3, Hlook1.
    destruct (lookupRoom rooms ref) as [[n b]|]; [|done]. unfold bookedBy. simpl.
    do 2 f_equal. by destruct b, (bool_decide (ref ∈ sel)).
Qed.

Lemma commit_order_irrelevant_witness :
  commitAllocation [mkRef 1 0; mkRef 2 3] initializeRooms
  = commitAllocation [mkRef 2 3; mkRef 1 0; mkRef 2 3] initializeRooms
  ∧ forEachBook [mkRef 1 0; mkRef 2 3]
      (forEachBook [mkRef 1 0; mkRef 2 3] initializeRooms).1
    = forEachBook [mkRef 1 0; mkRef 2 3] initializeRooms.
Proof.
  apply commit_order_irrelevant.
  - compute_done.
  - intros ref. rewrite !elem_of_cons. tauto.
Defined.

(** A missing floor hidden by an earlier floor: without floor 2 a request
    for two rooms is served from floor 1, a request for three throws. *)
Example missing_floor :
  findBestAllocation (delete 2%nat floor1_nearly_full) 2
  = Some [mkRef 1 8; mkRef 1 9]
  ∧ findBestAllocation (delete 2%nat floor1_nearly_full) 3 = None
  ∧ bookRooms (delete 2%nat floor1_nearly_full) 3
    = mkRun [CallFindBestAllocation 3] (delete 2%nat floor1_nearly_full)
            ThrewTypeError.
Proof. split_and!; by vm_compute. Qed.
